(** * SilverBullet editor and plug runtime: a shallow embedding

  The development follows the client-side [Editor] class (web/editor.tsx),
  the [core] plug manifest (plugs/core/core.plug.yaml) and the contracts of
  the plug runtime the editor drives (event hook, command hook, syscall
  registry, page-namespace hook).

  Asynchronous code is modelled by explicit state passing: a promise that
  an [await] waits for is run to completion at the [await]; timers live in
  an explicit timer table with a clock. *)

From Stdlib Require Import ZArith Lia.
From stdpp Require Import base option list strings gmap.

Open Scope string_scope.
Open Scope list_scope.
Open Scope Z_scope.

(** ** JavaScript values *)

Module Js.

(** The values that cross the sandbox boundary.  Numbers are integers
    here: no claim depends on fractions or NaN. *)
#[warnings="-register-all"]
Inductive Value : Type :=
| Undefined
| Null
| Bool (b : bool)
| Number (z : Z)
| String (s : string)
| Array (items : list Value)
| Object (fields : list (string * Value)).

(** ToBoolean: what [if (v)] tests. *)
Definition truthy (v : Value) : bool :=
  match v with
  | Undefined | Null => false
  | Bool b => b
  | Number z => negb (z =? 0)
  | String s => negb (String.eqb s "")
  | Array _ | Object _ => true
  end.

(** [if (s)] on an optional string ([string | undefined]). *)
Definition truthy_str (o : option string) : bool :=
  match o with
  | Some s => negb (String.eqb s "")
  | None => false
  end.

(** [Array.prototype.includes] on an array of strings. *)
Fixpoint includes (l : list string) (x : string) : bool :=
  match l with
  | [] => false
  | y :: l' => if String.eqb y x then true else includes l' x
  end.

End Js.

(** ** Strings as sequences of UTF-16 code units

    A JavaScript string is a sequence of 16-bit code units; regular
    expressions without the [u] flag match unit by unit.  Literals are
    written in UTF-8 and decoded here. *)

Module Utf16.

Definition byte_val (a : Ascii.ascii) : Z := Z.of_N (Ascii.N_of_ascii a).

(** UTF-8 decoder: [need] continuation bytes are still expected for the
    code point accumulated in [acc]. *)
Fixpoint decode (s : string) (need : nat) (acc : Z) : list Z :=
  match s with
  | EmptyString => []
  | String.String a s' =>
    let b := byte_val a in
    match need with
    | O =>
      if b <? 0x80 then b :: decode s' 0 0
      else if b <? 0xE0 then decode s' 1 (Z.land b 0x1F)
      else if b <? 0xF0 then decode s' 2 (Z.land b 0x0F)
      else decode s' 3 (Z.land b 0x07)
    | S n =>
      let acc' := Z.lor (Z.shiftl acc 6) (Z.land b 0x3F) in
      match n with
      | O => acc' :: decode s' 0 0
      | S _ => decode s' n acc'
      end
    end
  end.

(** A code point above the basic plane is a surrogate pair. *)
Definition units_of_code_point (cp : Z) : list Z :=
  if cp <? 0x10000 then [cp]
  else let c := cp - 0x10000 in
       [0xD800 + Z.shiftr c 10; 0xDC00 + Z.land c 0x3FF].

Definition code_units (s : string) : list Z :=
  flat_map units_of_code_point (decode s 0 0).

End Utf16.

(** ** Regular expressions ([new RegExp(pattern)], [RegExp.prototype.test])

    The fragment the manifests use: literal characters, [.], and the
    postfix quantifiers [+], [*] and [?].  Any other metacharacter makes
    [compile] fail, as an ill-formed pattern makes [new RegExp] throw. *)

Module Regex.

Inductive Re : Type :=
| Fail
| Eps
| Unit (c : Z)
| Dot
| AnyUnit
| Seq (r1 r2 : Re)
| Alt (r1 r2 : Re)
| Star (r : Re).

(** LineTerminator code units, which [.] does not match. *)
Definition line_terminator (c : Z) : bool :=
  (c =? 0x0A) || (c =? 0x0D) || (c =? 0x2028) || (c =? 0x2029).

Fixpoint nullable (r : Re) : bool :=
  match r with
  | Fail | Unit _ | Dot | AnyUnit => false
  | Eps | Star _ => true
  | Seq r1 r2 => nullable r1 && nullable r2
  | Alt r1 r2 => nullable r1 || nullable r2
  end.

(** Brzozowski derivative by one code unit. *)
Fixpoint deriv (c : Z) (r : Re) : Re :=
  match r with
  | Fail | Eps => Fail
  | Unit d => if c =? d then Eps else Fail
  | Dot => if line_terminator c then Fail else Eps
  | AnyUnit => Eps
  | Seq r1 r2 =>
    if nullable r1 then Alt (Seq (deriv c r1) r2) (deriv c r2)
    else Seq (deriv c r1) r2
  | Alt r1 r2 => Alt (deriv c r1) (deriv c r2)
  | Star r1 => Seq (deriv c r1) (Star r1)
  end.

(** Smart constructors keep derivatives small. *)
Fixpoint simp (r : Re) : Re :=
  match r with
  | Seq r1 r2 =>
    match simp r1, simp r2 with
    | Fail, _ | _, Fail => Fail
    | Eps, r2' => r2'
    | r1', Eps => r1'
    | r1', r2' => Seq r1' r2'
    end
  | Alt r1 r2 =>
    match simp r1, simp r2 with
    | Fail, r2' => r2'
    | r1', Fail => r1'
    | r1', r2' => Alt r1' r2'
    end
  | _ => r
  end.

(** The whole of [s] is in the language of [r]. *)
Fixpoint matches (r : Re) (s : list Z) : bool :=
  match s with
  | [] => nullable r
  | c :: s' => matches (simp (deriv c r)) s'
  end.

(** Metacharacters of the pattern syntax. *)
Definition is_meta (c : Z) : bool :=
  Js.includes ["\"; "["; "]"; "("; ")"; "{"; "}"; "|"; "^"; "$"; "*"; "+"; "?"]
              (String.String (Ascii.ascii_of_N (Z.to_N c)) EmptyString)
  && (c <? 0x80).

Definition atom (c : Z) : option Re :=
  if c =? 0x2E then Some Dot
  else if is_meta c then None
  else Some (Unit c).

Fixpoint compile (p : list Z) : option Re :=
  match p with
  | [] => Some Eps
  | c :: p1 =>
    match atom c with
    | None => None
    | Some a =>
      match p1 with
      | q :: p2 =>
        if q =? 0x2B then Seq (Seq a (Star a)) <$> compile p2
        else if q =? 0x2A then Seq (Star a) <$> compile p2
        else if q =? 0x3F then Seq (Alt a Eps) <$> compile p2
        else Seq a <$> compile p1
      | [] => Some a
      end
    end
  end.

(** [new RegExp(pattern)]: [None] when the constructor throws. *)
Definition RegExp (pattern : string) : option Re :=
  compile (Utf16.code_units pattern).

(** [re.test(s)]: some substring of [s] matches (the search is not
    anchored). *)
Definition test (r : Re) (s : string) : bool :=
  matches (Seq (Star AnyUnit) (Seq r (Star AnyUnit))) (Utf16.code_units s).

End Regex.

(** ** Plug manifests *)

Module Manifest.

(** [env:] of a function; absent means the function runs anywhere. *)
Inductive Env : Type := client | server.

#[global] Instance Env_eq_dec : EqDecision Env.
Proof. solve_decision. Defined.

Record CommandDef : Type := mkCommandDef {
  cmd_name : string;
  key : option string;
  mac : option string;
  priority : option Z;
  contexts : option (list string);
  (** further keys of the command block, handed to the function as is *)
  cmd_args : list (string * string)
}.

Record SlashCommandDef : Type := mkSlashCommandDef {
  slash_name : string;
  description : string;
  value : option string
}.

Record PageNamespaceDef : Type := mkPageNamespaceDef {
  pattern : string;
  operation : string
}.

Record FunctionDef : Type := mkFunctionDef {
  path : option string;
  redirect : option string;
  env : option Env;
  events : list string;
  command : option CommandDef;
  slashCommand : option SlashCommandDef;
  pageNamespace : option PageNamespaceDef
}.

Record SyntaxDef : Type := mkSyntaxDef {
  firstCharacters : list string;
  regex : string;
  className : string
}.

(** [functions] and [syntax] are mappings; they are kept in document
    order, which is the order [Object.entries] walks them in. *)
Record t : Type := mkManifest {
  name : string;
  imports : list string;
  syntax : list (string * SyntaxDef);
  functions : list (string * FunctionDef)
}.

(** *** Notation for writing manifests down *)

Definition fn (p : string) : FunctionDef :=
  mkFunctionDef (Some p) None None [] None None None.

Definition redirect_to (r : string) : FunctionDef :=
  mkFunctionDef None (Some r) None [] None None None.

Definition in_env (e : Env) (f : FunctionDef) : FunctionDef :=
  mkFunctionDef (path f) (redirect f) (Some e) (events f) (command f)
                (slashCommand f) (pageNamespace f).

Definition on (evs : list string) (f : FunctionDef) : FunctionDef :=
  mkFunctionDef (path f) (redirect f) (env f) evs (command f)
                (slashCommand f) (pageNamespace f).

Definition with_command (c : CommandDef) (f : FunctionDef) : FunctionDef :=
  mkFunctionDef (path f) (redirect f) (env f) (events f) (Some c)
                (slashCommand f) (pageNamespace f).

Definition with_slash (n d : string) (v : option string) (f : FunctionDef)
  : FunctionDef :=
  mkFunctionDef (path f) (redirect f) (env f) (events f) (command f)
                (Some (mkSlashCommandDef n d v)) (pageNamespace f).

Definition with_namespace (pat op : string) (f : FunctionDef) : FunctionDef :=
  mkFunctionDef (path f) (redirect f) (env f) (events f) (command f)
                (slashCommand f) (Some (mkPageNamespaceDef pat op)).

Definition cmd (n : string) : CommandDef :=
  mkCommandDef n None None None None [].

Definition keyed (k : string) (m : option string) (c : CommandDef) : CommandDef :=
  mkCommandDef (cmd_name c) (Some k) m (priority c) (contexts c) (cmd_args c).

Definition prio (p : Z) (c : CommandDef) : CommandDef :=
  mkCommandDef (cmd_name c) (key c) (mac c) (Some p) (contexts c) (cmd_args c).

Definition in_contexts (cs : list string) (c : CommandDef) : CommandDef :=
  mkCommandDef (cmd_name c) (key c) (mac c) (priority c) (Some cs) (cmd_args c).

Definition arg (k v : string) (c : CommandDef) : CommandDef :=
  mkCommandDef (cmd_name c) (key c) (mac c) (priority c) (contexts c)
               (cmd_args c ++ [(k, v)]).

(** *** plugs/core/core.plug.yaml *)

Definition core_syntax : list (string * SyntaxDef) :=
  [ ("Hashtag", mkSyntaxDef ["#"] "#[^#\d\s]+\w+" "sb-hashtag");
    ("NakedURL",
     mkSyntaxDef ["h"]
       ("https?:\/\/[-a-zA-Z0-9@:%._\+~#=]{1,256}([-a-zA-Z0-9()@:%_\+.~#?&=\/]*"
        +:+ ")")
       "sb-naked-url");
    ("CommandLink", mkSyntaxDef ["{"] "\{\[[^\]]+\]\}" "sb-command-link");
    ("NamedAnchor",
     mkSyntaxDef ["$"] "\$[a-zA-Z\.\-\/]+[\w\.\-\/]*" "sb-named-anchor") ].

Definition core_functions : list (string * FunctionDef) :=
  [ ("clearPageIndex",
     in_env server (on ["page:saved"; "page:deleted"] (fn "./page.ts:clearPageIndex")));
    ("pageQueryProvider", on ["query:page"] (fn "./page.ts:pageQueryProvider"));
    ("parseIndexTextRepublish",
     on ["page:index_text"] (fn "./page.ts:parseIndexTextRepublish"));
    ("reindexSpaceCommand",
     with_command (cmd "Space: Reindex") (fn "./page.ts:reindexCommand"));
    ("reindexSpace", in_env server (fn "./page.ts:reindexSpace"));
    ("deletePage", with_command (cmd "Page: Delete") (fn "./page.ts:deletePage"));
    ("editorLoad", on ["plugs:loaded"] (fn "./editor.ts:editorLoad"));
    ("toggleReadOnlyode",
     with_command (cmd "Editor: Toggle Read Only Mode")
                  (fn "./editor.ts:toggleReadOnlyMode"));
    (* Backlinks *)
    ("indexLinks", on ["page:index"] (fn "./page.ts:indexLinks"));
    ("linkQueryProvider", on ["query:link"] (fn "./page.ts:linkQueryProvider"));
    ("renamePage",
     with_command (keyed "Ctrl-Alt-r" (Some "Cmd-Alt-r") (cmd "Page: Rename"))
                  (fn "./page.ts:renamePage"));
    ("pageComplete", on ["page:complete"] (fn "./page.ts:pageComplete"));
    (* Commands *)
    ("commandComplete", on ["page:complete"] (fn "./command.ts:commandComplete"));
    (* Item indexing *)
    ("indexItem", on ["page:index"] (fn "./item.ts:indexItems"));
    ("itemQueryProvider", on ["query:item"] (fn "./item.ts:queryProvider"));
    (* Navigation *)
    ("linkNavigate",
     with_command (keyed "Ctrl-Enter" (Some "Cmd-Enter") (cmd "Navigate To page"))
                  (fn "./navigate.ts:linkNavigate"));
    ("clickNavigate", on ["page:click"] (fn "./navigate.ts:clickNavigate"));
    ("navigateHome",
     with_command (arg "page" "" (keyed "Alt-h" None (cmd "Navigate: Home")))
                  (fn "./navigate.ts:navigateCommand"));
    (* Hashtags *)
    ("indexTags", on ["page:index"] (fn "./tags.ts:indexTags"));
    ("tagComplete", on ["page:complete"] (fn "./tags.ts:tagComplete"));
    ("tagProvider", on ["query:tag"] (fn "./tags.ts:tagProvider"));
    (* Anchors *)
    ("indexAnchors", on ["page:index"] (fn "./anchor.ts:indexAnchors"));
    ("anchorComplete", on ["page:complete"] (fn "./anchor.ts:anchorComplete"));
    (* Full text search *)
    ("searchIndex", on ["page:index"] (fn "./search.ts:pageIndex"));
    ("searchUnindex",
     in_env server (on ["page:deleted"] (fn "./search.ts:pageUnindex")));
    ("searchQueryProvider", on ["query:full-text"] (fn "./search.ts:queryProvider"));
    ("searchCommand",
     with_command (keyed "Ctrl-Shift-f" (Some "Cmd-Shift-f") (cmd "Search Space"))
                  (fn "./search.ts:searchCommand"));
    ("readPageSearch",
     with_namespace "🔍 .+" "readFile" (fn "./search.ts:readFileSearch"));
    ("getPageMetaSearch",
     with_namespace "🔍 .+" "getFileMeta" (fn "./search.ts:getFileMetaSearch"));
    (* Template commands *)
    ("insertTemplateText", fn "./template.ts:insertTemplateText");
    ("insertFrontMatter",
     with_slash "front-matter" "Insert page front matter"
       (Some "---
|^|
---
")
       (redirect_to "insertTemplateText"));
    ("insertTask",
     with_slash "task" "Insert a task" (Some "* [ ] |^|")
                (redirect_to "insertTemplateText"));
    ("insertHRTemplate",
     with_slash "hr" "Insert a horizontal rule" (Some "---")
                (redirect_to "insertTemplateText"));
    ("quickNoteCommand",
     with_command (prio 1 (keyed "Alt-Shift-n" None (cmd "Quick Note")))
                  (fn "./template.ts:quickNoteCommand"));
    ("dailyNoteCommand",
     with_command (keyed "Alt-Shift-d" None (cmd "Open Daily Note"))
                  (fn "./template.ts:dailyNoteCommand"));
    ("weeklyNoteCommand",
     with_command (keyed "Alt-Shift-w" None (cmd "Open Weekly Note"))
                  (fn "./template.ts:weeklyNoteCommand"));
    ("instantiateTemplateCommand",
     with_command (cmd "Template: Instantiate Page")
                  (fn "./template.ts:instantiateTemplateCommand"));
    ("insertSnippet",
     with_slash "snippet" "Insert a snippet" None
       (with_command (cmd "Template: Insert Snippet")
                     (fn "./template.ts:insertSnippet")));
    ("insertTodayCommand",
     with_slash "today" "Insert today's date" (Some "{{today}}")
                (fn "./template.ts:insertTemplateText"));
    ("insertTomorrowCommand",
     with_slash "tomorrow" "Insert tomorrow's date" (Some "{{tomorrow}}")
                (fn "./template.ts:insertTemplateText"));
    (* Text editing commands *)
    ("quoteSelectionCommand",
     with_command
       (keyed "Ctrl-Shift-." (Some "Cmd-Shift-.") (cmd "Text: Quote Selection"))
       (fn "./text.ts:quoteSelection"));
    ("listifySelection",
     with_command (cmd "Text: Listify Selection") (fn "./text.ts:listifySelection"));
    ("numberListifySelection",
     with_command (cmd "Text: Number Listify Selection")
                  (fn "./text.ts:numberListifySelection"));
    ("linkSelection",
     with_command
       (keyed "Ctrl-Shift-k" (Some "Cmd-Shift-k") (cmd "Text: Link Selection"))
       (fn "./text.ts:linkSelection"));
    ("bold",
     with_command (arg "wrapper" "**" (keyed "Ctrl-b" (Some "Cmd-b") (cmd "Text: Bold")))
                  (fn "./text.ts:wrapSelection"));
    ("italic",
     with_command (arg "wrapper" "_" (keyed "Ctrl-i" (Some "Cmd-i") (cmd "Text: Italic")))
                  (fn "./text.ts:wrapSelection"));
    ("marker",
     with_command (arg "wrapper" "==" (keyed "Alt-m" None (cmd "Text: Marker")))
                  (fn "./text.ts:wrapSelection"));
    (* Plug manager *)
    ("updatePlugsCommand",
     with_command (keyed "Ctrl-Shift-p" (Some "Cmd-Shift-p") (cmd "Plugs: Update"))
                  (fn "./plugmanager.ts:updatePlugsCommand"));
    ("updatePlugs", in_env server (fn "./plugmanager.ts:updatePlugs"));
    ("getPlugHTTPS", on ["get-plug:https"] (fn "./plugmanager.ts:getPlugHTTPS"));
    ("getPlugGithub", on ["get-plug:github"] (fn "./plugmanager.ts:getPlugGithub"));
    ("getPlugGithubRelease",
     on ["get-plug:ghr"] (fn "./plugmanager.ts:getPlugGithubRelease"));
    (* Debug commands *)
    ("parseCommand",
     with_command (cmd "Debug: Parse Document") (fn "./debug.ts:parsePageCommand"));
    ("showLogsCommand",
     on ["log:reload"]
        (with_command
           (keyed "Ctrl-Alt-l" (Some "Cmd-Alt-l") (cmd "Debug: Show Logs"))
           (fn "./debug.ts:showLogsCommand")));
    ("hideBhsCommand",
     with_command (keyed "Ctrl-Alt-b" (Some "Cmd-Alt-b") (cmd "UI: Hide BHS"))
                  (fn "./debug.ts:hideBhsCommand"));
    (* Link unfurl infrastructure *)
    ("unfurlLink",
     with_command
       (in_contexts ["NakedURL"]
          (keyed "Ctrl-Shift-u" (Some "Cmd-Shift-u") (cmd "Link: Unfurl")))
       (fn "./link.ts:unfurlCommand"));
    ("unfurlExec", in_env server (fn "./link.ts:unfurlExec"));
    (* Title-based link unfurl *)
    ("titleUnfurlOptions", on ["unfurl:options"] (fn "./link.ts:titleUnfurlOptions"));
    ("titleUnfurl", on ["unfurl:title-unfurl"] (fn "./link.ts:titleUnfurl"));
    (* Random stuff *)
    ("statsCommand",
     with_command (keyed "Ctrl-s" (Some "Cmd-s") (cmd "Stats: Show"))
                  (fn "./stats.ts:statsCommand"));
    (* Cloud pages *)
    ("readPageCloud",
     with_namespace "💭 .+" "readFile" (fn "./cloud.ts:readFileCloud"));
    ("getPageMetaCloud",
     with_namespace "💭 .+" "getFileMeta" (fn "./cloud.ts:getFileMetaCloud")) ].

Definition core : t :=
  mkManifest "core" ["https://get.silverbullet.md/global.plug.json"]
             core_syntax core_functions.

End Manifest.

(** ** Insertion-ordered maps ([Map<string, V>] where the code iterates) *)

Module JsMap.

Section JsMap.
Context {V : Type}.

Definition t : Type := list (string * V).

Definition empty : t := [].

Fixpoint get (k : string) (m : t) : option V :=
  match m with
  | [] => None
  | (k', v) :: m' => if String.eqb k' k then Some v else get k m'
  end.

(** [Map.prototype.set]: an existing key keeps its place in the order. *)
Fixpoint set (k : string) (v : V) (m : t) : t :=
  match m with
  | [] => [(k, v)]
  | (k', v') :: m' =>
    if String.eqb k' k then (k, v) :: m' else (k', v') :: set k v m'
  end.

Definition values (m : t) : list V := map snd m.

End JsMap.

Arguments t : clear implicits.

End JsMap.

(** ** The plug runtime: sandboxes, hooks, syscall registry, orchestrator

    The editor creates the runtime ([new System("client")]), adds its
    hooks, registers syscalls and loads plugs into it.  The editor's source
    shows the calls it makes; the runtime itself (plugos/ and the hooks of
    web/hooks/) is the missing part, and every definition of this module is
    modelled from the specification of the runtime.  [Host] is the state
    that syscall implementations act on. *)

Module Plugos.
Import Manifest.

(** Modelled from the spec: the ways a call into a sandbox fails
    ([TimedOut | Trapped | ThrownError]); the sandbox is the missing part. *)
Inductive Failure : Type :=
| TimedOut
| Trapped
| ThrownError (msg : string).

(** Modelled from the spec: the result of a call into a sandbox, a value
    or a failure. *)
Inductive Outcome : Type :=
| Returned (v : Js.Value)
| Failed (f : Failure).

(** Modelled from the spec: the sandbox (plugos/environments) is an
    isolated context reached by self-contained calls
    [invoke(functionName, args, timeout) -> Result | {TimedOut | Trapped |
    ThrownError}]; what the plug code computes is a function of the call. *)
Record Sandbox : Type := mkSandbox {
  run : string -> list Js.Value -> Outcome
}.

(** Modelled from the spec: [instantiate(codeBundle) -> SandboxHandle |
    LoadError], the [createSandbox] the editor hands to [System.load]
    (plugos/environments/webworker_sandbox.ts is the missing part); [None]
    is a [LoadError]. *)
Definition SandboxFactory : Type := Manifest.t -> option Sandbox.

(** Modelled from the spec: a plugin handle, the plug's name and its load
    generation. *)
Definition PlugRef : Type := string * nat.

(** Modelled from the spec: a LoadedPlugin is a manifest bound to a live
    sandbox and a generation counter. *)
Record LoadedPlugin : Type := mkLoadedPlugin {
  manifest : Manifest.t;
  plug_generation : nat;
  sandbox : Sandbox
}.

(** Modelled from the spec: the handle of a loaded plug. *)
Definition ref_of (p : LoadedPlugin) : PlugRef :=
  (name (manifest p), plug_generation p).

(** Modelled from the spec: an entry of an EventSubscription, (plugin,
    function name). *)
Definition Subscriber : Type := PlugRef * string.

(** Modelled from the spec: a CommandEntry is the declared command with
    the plugin and function that own it (web/hooks/command.ts is the
    missing part). *)
Record CommandEntry : Type := mkCommandEntry {
  command : CommandDef;
  cmd_plug : PlugRef;
  cmd_function : string
}.

(** Modelled from the spec: an entry of the slash-command hook. *)
Record SlashEntry : Type := mkSlashEntry {
  slash : SlashCommandDef;
  slash_plug : PlugRef;
  slash_function : string
}.

(** Modelled from the spec: a page-namespace handler, a compiled pattern
    and an operation name with the function that serves them. *)
Record NamespaceHandler : Type := mkNamespaceHandler {
  ns_operation : string;
  ns_pattern : Regex.Re;
  ns_plug : PlugRef;
  ns_function : string
}.

(** A call that reached a sandbox; the runtime keeps the trace of them. *)
Record Invocation : Type := mkInvocation {
  inv_plug : PlugRef;
  inv_function : string;
  inv_args : list Js.Value
}.

(** What is written to the console. *)
Inductive LogEntry : Type :=
| Log (msg : string)
| Error (msg : string)
| SubscriberFailed (event : string) (s : Subscriber) (f : Failure)
| PlugSkipped (plug : string).

(** Modelled from the spec: how loading one plug ends ([ValidationError],
    [LoadError]). *)
Inductive LoadResult : Type :=
| Loaded
| ValidationError
| LoadError.

(** Modelled from the spec: [Result | {NotFound | EnvironmentMismatch |
    Failure}] of a syscall dispatch. *)
Inductive SyscallResult : Type :=
| SysReturned (v : Js.Value)
| NotFound
| EnvironmentMismatch
| SysFailure (f : Failure).

Section WithHost.
Context {Host : Type}.

(** Modelled from the spec: the host implementation of a syscall. *)
Definition SyscallImpl : Type := list Js.Value -> Host -> Outcome * Host.

(** Modelled from the spec: a SyscallBinding is a host implementation, the
    environment it requires, the permissions it requires and the plugin
    that owns it, if one does. *)
Record Binding : Type := mkBinding {
  impl : SyscallImpl;
  required_env : option Env;
  required_permissions : list string;
  owner : option PlugRef
}.

(** Modelled from the spec: the orchestrator (plugos/system.ts is the
    missing part) owns the loaded plugs, the hooks and the syscall registry.
    [invocations] and [executed] are traces: the calls made into sandboxes
    and the syscall implementations run, in order. *)
Record System : Type := mkSystem {
  runtimeEnv : Env;
  generation : nat;
  loadedPlugs : list LoadedPlugin;
  eventHook : gmap string (list Subscriber);
  commandHook : JsMap.t CommandEntry;
  slashCommandHook : list SlashEntry;
  namespaceHook : list NamespaceHandler;
  registeredSyscalls : gmap string Binding;
  console : list LogEntry;
  invocations : list Invocation;
  executed : list (string * list Js.Value)
}.

(** Modelled from the spec: [new System(env)], nothing loaded. *)
Definition new_system (e : Env) : System :=
  mkSystem e O [] ∅ JsMap.empty [] [] ∅ [] [] [].

Definition set_generation (g : nat) (s : System) : System :=
  mkSystem (runtimeEnv s) g (loadedPlugs s) (eventHook s) (commandHook s)
           (slashCommandHook s) (namespaceHook s) (registeredSyscalls s)
           (console s) (invocations s) (executed s).

Definition set_loadedPlugs (ps : list LoadedPlugin) (s : System) : System :=
  mkSystem (runtimeEnv s) (generation s) ps (eventHook s) (commandHook s)
           (slashCommandHook s) (namespaceHook s) (registeredSyscalls s)
           (console s) (invocations s) (executed s).

Definition set_eventHook (h : gmap string (list Subscriber)) (s : System)
  : System :=
  mkSystem (runtimeEnv s) (generation s) (loadedPlugs s) h (commandHook s)
           (slashCommandHook s) (namespaceHook s) (registeredSyscalls s)
           (console s) (invocations s) (executed s).

Definition set_caches (c : JsMap.t CommandEntry) (sl : list SlashEntry)
    (ns : list NamespaceHandler) (s : System) : System :=
  mkSystem (runtimeEnv s) (generation s) (loadedPlugs s) (eventHook s) c sl ns
           (registeredSyscalls s) (console s) (invocations s) (executed s).

Definition set_registeredSyscalls (r : gmap string Binding) (s : System)
  : System :=
  mkSystem (runtimeEnv s) (generation s) (loadedPlugs s) (eventHook s)
           (commandHook s) (slashCommandHook s) (namespaceHook s) r
           (console s) (invocations s) (executed s).

Definition write_console (l : LogEntry) (s : System) : System :=
  mkSystem (runtimeEnv s) (generation s) (loadedPlugs s) (eventHook s)
           (commandHook s) (slashCommandHook s) (namespaceHook s)
           (registeredSyscalls s) (console s ++ [l]) (invocations s)
           (executed s).

Definition record_invocation (i : Invocation) (s : System) : System :=
  mkSystem (runtimeEnv s) (generation s) (loadedPlugs s) (eventHook s)
           (commandHook s) (slashCommandHook s) (namespaceHook s)
           (registeredSyscalls s) (console s) (invocations s ++ [i])
           (executed s).

Definition record_executed (n : string) (args : list Js.Value) (s : System)
  : System :=
  mkSystem (runtimeEnv s) (generation s) (loadedPlugs s) (eventHook s)
           (commandHook s) (slashCommandHook s) (namespaceHook s)
           (registeredSyscalls s) (console s) (invocations s)
           (executed s ++ [(n, args)]).

(** *** Sandbox calls *)

(** Modelled from the spec: a handle names a plug by name and generation. *)
Definition has_ref (r : PlugRef) (p : LoadedPlugin) : bool :=
  bool_decide (ref_of p = r).

(** Modelled from the spec: the arena of live handles, indexed by name
    and generation. *)
Definition lookup_plug (r : PlugRef) (s : System) : option LoadedPlugin :=
  List.find (has_ref r) (loadedPlugs s).

(** Modelled from the spec: plugin handles are invalidated by generation;
    a call on a handle that is no longer live resolves to [Trapped] and
    never reaches a sandbox. *)
Definition invoke (r : PlugRef) (f : string) (args : list Js.Value)
    (s : System) : Outcome * System :=
  match lookup_plug r s with
  | None => (Failed Trapped, s)
  | Some p => (run (sandbox p) f args, record_invocation (mkInvocation r f args) s)
  end.

(** *** Event hook *)

(** Modelled from the spec: the ordered subscribers of an event. *)
Definition subscribers (ev : string) (s : System) : list Subscriber :=
  default [] (eventHook s !! ev).

(** Modelled from the spec: [subscribe(eventName, pluginRef, functionName)]
    is idempotent and appends in registration order. *)
Definition subscribe (ev : string) (r : PlugRef) (f : string) (s : System)
  : System :=
  let subs := subscribers ev s in
  if bool_decide ((r, f) ∈ subs) then s
  else set_eventHook (<[ev := subs ++ [(r, f)]]> (eventHook s)) s.

(** Modelled from the spec: the subscribers of one event without those of
    [r]; an event left without subscribers leaves the table. *)
Definition drop_plug (r : PlugRef) (subs : list Subscriber)
  : option (list Subscriber) :=
  match List.filter (fun sub : Subscriber => negb (bool_decide (sub.1 = r))) subs with
  | [] => None
  | l => Some l
  end.

(** Modelled from the spec: [unsubscribeAll(pluginRef)]. *)
Definition unsubscribeAll (r : PlugRef) (s : System) : System :=
  set_eventHook (omap (drop_plug r) (eventHook s)) s.

(** Modelled from the spec: [dispatchEvent(eventName, payload)] invokes
    every current subscriber in registration order and collects the
    results; a subscriber whose invocation fails contributes no result and
    is logged, and dispatch goes on with the remaining subscribers.  Only
    the hook's interface is used by the editor (plugos/hooks/event.ts is
    the missing part). *)
Fixpoint dispatch_to (ev : string) (subs : list Subscriber)
    (payload : Js.Value) (s : System) : list Js.Value * System :=
  match subs with
  | [] => ([], s)
  | sub :: rest =>
    let '(o, s1) := invoke sub.1 sub.2 [payload] s in
    match o with
    | Returned v =>
      let '(vs, s2) := dispatch_to ev rest payload s1 in (v :: vs, s2)
    | Failed f =>
      dispatch_to ev rest payload (write_console (SubscriberFailed ev sub f) s1)
    end
  end.

(** Modelled from the spec: [dispatchEvent] works on the subscribers the
    event has when the dispatch starts. *)
Definition dispatchEvent (ev : string) (payload : Js.Value) (s : System)
  : list Js.Value * System :=
  dispatch_to ev (subscribers ev s) payload s.

(** *** Command, slash-command and page-namespace hooks *)

(** Modelled from the spec: the commands a plug declares, in manifest
    order. *)
Definition commands_of (p : LoadedPlugin) : list CommandEntry :=
  omap (fun '(fname, f) =>
          (fun c => mkCommandEntry c (ref_of p) fname) <$> Manifest.command f)
       (functions (manifest p)).

(** Modelled from the spec: the command table is recomputed in full from
    the loaded plugs; for two commands of one name the last registration
    wins. *)
Definition build_commands (ps : list LoadedPlugin) : JsMap.t CommandEntry :=
  foldl (fun m c => JsMap.set (cmd_name (command c)) c m) JsMap.empty
        (flat_map commands_of ps).

(** Modelled from the spec: the slash commands a plug declares. *)
Definition slash_of (p : LoadedPlugin) : list SlashEntry :=
  omap (fun '(fname, f) =>
          (fun c => mkSlashEntry c (ref_of p) fname) <$> slashCommand f)
       (functions (manifest p)).

(** Modelled from the spec: the page-namespace handlers a plug declares,
    with their patterns compiled. *)
Definition handlers_of (p : LoadedPlugin) : list NamespaceHandler :=
  omap (fun '(fname, f) =>
          ns ← pageNamespace f;
          re ← Regex.RegExp (pattern ns);
          Some (mkNamespaceHandler (operation ns) re (ref_of p) fname))
       (functions (manifest p)).

(** Modelled from the spec: the hook tables are recomputed on every load
    and unload. *)
Definition rebuild_hooks (s : System) : System :=
  set_caches (build_commands (loadedPlugs s))
             (flat_map slash_of (loadedPlugs s))
             (flat_map handlers_of (loadedPlugs s)) s.

(** Modelled from the spec: page-namespace routing.  The first loaded
    handler whose operation is the requested one and whose pattern matches
    the name services the call; [None] when no handler claims the name
    (the call then goes to the ordinary page store). *)
Fixpoint first_handler (op name : string) (hs : list NamespaceHandler)
  : option NamespaceHandler :=
  match hs with
  | [] => None
  | h :: hs' =>
    if String.eqb (ns_operation h) op && Regex.test (ns_pattern h) name
    then Some h
    else first_handler op name hs'
  end.

(** Modelled from the spec: the handler found services the call; the
    name is its first argument. *)
Definition performOperation (op name : string) (args : list Js.Value)
    (s : System) : option Outcome * System :=
  match first_handler op name (namespaceHook s) with
  | None => (None, s)
  | Some h =>
    let '(o, s') := invoke (ns_plug h) (ns_function h) (Js.String name :: args) s in
    (Some o, s')
  end.

(** *** Syscall registry *)

(** Modelled from the spec: [register(name, env, impl)]; registering
    under an active name overwrites the prior binding. *)
Definition register (n : string) (e : option Env) (i : SyscallImpl)
    (s : System) : System :=
  set_registeredSyscalls (<[n := mkBinding i e [] None]> (registeredSyscalls s)) s.

(** Modelled from the spec: [system.registerSyscalls(requiredPermissions,
    ...sets)], as the editor calls it, registers host bindings open to both
    environments; a binding under an active name is overwritten. *)
Definition registerSyscalls (perms : list string)
    (sets : list (list (string * SyscallImpl))) (s : System) : System :=
  foldl (fun s '(n, i) =>
           set_registeredSyscalls
             (<[n := mkBinding i None perms None]> (registeredSyscalls s)) s)
        s (concat sets).

(** Modelled from the spec: an unspecified environment is either one. *)
Definition env_allows (required : option Env) (caller : Env) : bool :=
  match required with
  | None => true
  | Some e => bool_decide (e = caller)
  end.

(** Modelled from the spec: [dispatch(callerEnv, name, args) -> Result |
    {NotFound | EnvironmentMismatch | Failure}].  The environment is
    checked before the implementation is entered. *)
Definition syscall (callerEnv : Env) (n : string) (args : list Js.Value)
    (h : Host) (s : System) : SyscallResult * Host * System :=
  match registeredSyscalls s !! n with
  | None => (NotFound, h, s)
  | Some b =>
    if env_allows (required_env b) callerEnv then
      let '(o, h') := impl b args h in
      (match o with
       | Returned v => SysReturned v
       | Failed f => SysFailure f
       end, h', record_executed n args s)
    else (EnvironmentMismatch, h, s)
  end.

(** Modelled from the spec: a sandbox of this runtime calls with the
    runtime's own environment. *)
Definition sandbox_syscall (n : string) (args : list Js.Value) (h : Host)
    (s : System) : SyscallResult * Host * System :=
  syscall (runtimeEnv s) n args h s.

(** *** Loading and unloading *)

(** Modelled from the spec: a keybinding string is well formed when it is
    not empty. *)
Definition key_ok (k : option string) : bool :=
  match k with
  | Some s => negb (String.eqb s "")
  | None => true
  end.

(** Modelled from the spec: what validation asks of one function. *)
Definition function_ok (f : FunctionDef) : bool :=
  match pageNamespace f with
  | Some ns => bool_decide (is_Some (Regex.RegExp (pattern ns)))
  | None => true
  end
  && match Manifest.command f with
     | Some c => key_ok (key c) && key_ok (mac c)
     | None => true
     end.

(** Modelled from the spec: manifest validation.  Function names are
    unique, namespace patterns compile, keybinding strings are well formed
    (not empty); environment tags are recognised by their type. *)
Definition validate (m : Manifest.t) : bool :=
  bool_decide (NoDup (functions m).*1)
  && forallb (fun nf : string * FunctionDef => function_ok nf.2) (functions m).

(** Modelled from the spec: the syscall entries a plugin owns. *)
Definition owned_by (r : PlugRef) (b : Binding) : bool :=
  bool_decide (owner b = Some r).

(** Modelled from the spec: unloading one plugin unsubscribes it, clears
    the syscall entries it owns, removes it from the loaded plugs and has
    the hook tables recomputed. *)
Definition unload_plug (r : PlugRef) (s : System) : System :=
  let s1 := unsubscribeAll r s in
  let s2 := set_registeredSyscalls
              (filter (fun nb => owned_by r nb.2 = false) (registeredSyscalls s1)) s1 in
  let s3 := set_loadedPlugs
              (List.filter (fun p => negb (has_ref r p)) (loadedPlugs s2)) s2 in
  rebuild_hooks s3.

(** Modelled from the spec: [unloadAll()] unsubscribes every plugin from
    every hook, terminates every sandbox and clears the syscall entries the
    plugins own; it ends the load generation. *)
Definition unloadAll (s : System) : System :=
  let s1 := foldl (fun s p => unload_plug (ref_of p) s) s (loadedPlugs s) in
  set_generation (S (generation s1)) s1.

(** Modelled from the spec: the event triggers of a plug are registered in
    manifest order. *)
Definition subscribe_all (p : LoadedPlugin) (s : System) : System :=
  foldl (fun s '(fname, f) =>
           foldl (fun s ev => subscribe ev (ref_of p) fname s) s (events f))
        s (functions (manifest p)).

(** Modelled from the spec: the manifest name identifies a plug. *)
Definition same_name (n : string) (p : LoadedPlugin) : bool :=
  String.eqb (name (manifest p)) n.

(** Modelled from the spec: [load(manifest, createSandbox)] validates,
    instantiates a sandbox and registers the triggers; a failure leaves the
    system as it was.  A loaded plug of the same name is replaced whole. *)
Definition load (m : Manifest.t) (createSandbox : SandboxFactory)
    (s : System) : LoadResult * System :=
  if negb (validate m) then (ValidationError, s)
  else match createSandbox m with
       | None => (LoadError, s)
       | Some sb =>
         let s1 := foldl (fun s p => unload_plug (ref_of p) s) s
                         (List.filter (same_name (name m)) (loadedPlugs s)) in
         let p := mkLoadedPlugin m (generation s1) sb in
         let s2 := set_loadedPlugs (loadedPlugs s1 ++ [p]) s1 in
         (Loaded, rebuild_hooks (subscribe_all p s2))
       end.

(** Modelled from the spec: [loadAll(manifests)] skips a plugin that
    fails and goes on with the rest, reporting it. *)
Definition loadAll (ms : list Manifest.t) (createSandbox : SandboxFactory)
    (s : System) : System :=
  foldl (fun s m =>
           match load m createSandbox s with
           | (Loaded, s') => s'
           | (_, s') => write_console (PlugSkipped (name m)) s'
           end)
        s ms.

End WithHost.

Arguments System : clear implicits.
Arguments Binding : clear implicits.
Arguments SyscallImpl : clear implicits.

End Plugos.

(** ** The editor (web/editor.tsx) *)

Module Editor.
Import Manifest Plugos.

(** *** Data *)

Record PageMeta : Type := mkPageMeta {
  meta_name : string;
  lastModified : Z;
  perm : string
}.

Record EditorSelection : Type := mkSelection {
  anchor : Z;
  head : Z
}.

(** [class PageState] *)
Record PageState : Type := mkPageState {
  scrollTop : Z;
  selection : EditorSelection
}.

(** A thrown value: an [Error] with its message, the failure of a call
    into a sandbox, or the failure to load a plug. *)
Inductive JsError : Type :=
| Err (message : string)
| SandboxError (f : Failure)
| PlugError (plug : string) (r : LoadResult).

Inductive Result (A : Type) : Type :=
| Ok (a : A)
| Thrown (e : JsError).
Arguments Ok {A} a.
Arguments Thrown {A} e.

(** An entry of the command table as the editor sees it ([AppCommand]):
    the declaration and the function [run] calls. *)
Definition AppCommand : Type := CommandEntry.

Inductive NotificationType : Type := info | error.

Record Notification : Type := mkNotification {
  id : Z;
  type : NotificationType;
  message : string;
  date : Z
}.

(** Actions the editor dispatches to the view reducer. *)
Inductive Action : Type :=
| update_commands (commands : JsMap.t AppCommand)
| show_notification (notification : Notification)
| dismiss_notification (id : Z)
| pages_listed (pages : list PageMeta)
| page_changed
| page_saved
| page_loading (name : string)
| page_loaded (meta : PageMeta).

Record AppViewState : Type := mkViewState {
  currentPage : option string;
  view_perm : string;
  forcedROMode : bool;
  isLoading : bool;
  unsavedChanges : bool;
  allPages : list PageMeta;
  commands : JsMap.t AppCommand;
  notifications : list Notification
}.

(** A key binding made by [createEditorState] for a command. *)
Record KeyBinding : Type := mkKeyBinding {
  kb_key : string;
  kb_mac : option string;
  kb_def : AppCommand
}.

(** The part of the CodeMirror state the editor reads and writes. *)
Record EditorState : Type := mkEditorState {
  doc : string;
  state_selection : EditorSelection;
  commandKeyBindings : list KeyBinding
}.

Record ContentDOM : Type := mkContentDOM {
  spellcheck : bool;
  autocorrect : string;
  autocapitalize : string;
  contenteditable : string;
  ios_safari_readonly : bool
}.

Record EditorView : Type := mkEditorView {
  state : EditorState;
  scrollDOM_scrollTop : Z;
  contentDOM : ContentDOM;
  hasFocus : bool
}.

Record CollabState : Type := mkCollabState {
  ytext : string
}.

Definition MDExt : Type := string * SyntaxDef.

(** *** Timers and promises *)

Inductive TimerCallback : Type :=
| SaveTick (p : nat)        (* the arrow function armed by [save] *)
| SaveRetry                 (* [this.save.bind(this)] *)
| DismissTick (id : Z).     (* the dismissal armed by [flashNotification] *)

Record Timer : Type := mkTimer {
  timer_id : Z;
  due : Z;
  callback : TimerCallback
}.

Inductive Settlement : Type :=
| Resolved
| Rejected (e : JsError).

Record Runtime : Type := mkRuntime {
  clock : Z;
  timers : list Timer;
  next_timer : Z;
  settled : gmap nat Settlement;
  next_promise : nat;
  random_calls : nat
}.

(** Calls made on the space that change it; a trace. *)
Inductive SpaceCall : Type :=
| WritePage (name text : string) (selfUpdate : bool).

(** *** What the editor imports

    The page store, the view reducer, the sandbox factory, the markdown
    extension loader, the syntax tree and the random source are used
    through their interfaces only. *)
Class Externals : Type := {
  Space : Type;
  Host : Type;
  readPage : Space -> string -> Result (string * PageMeta);
  writePage : Space -> string -> string -> bool -> Result (Space * PageMeta);
  updatePageList : Space -> Result (Space * list PageMeta);
  listPlugs : Space -> Result (list string);
  readPlug : Space -> string -> Result Manifest.t;
  watchPage : Space -> string -> Space;
  unwatchPage : Space -> string -> Space;
  reducer : AppViewState -> Action -> AppViewState;
  initialViewState : AppViewState;
  hostSyscalls : list (list (string * SyscallImpl Host));
  createSandbox : SandboxFactory;
  loadMarkdownExtensions : System Host -> list MDExt;
  markdownSyscalls : list MDExt -> list (string * SyscallImpl Host);
  nodeNameAt : string -> Z -> string;
  random_id : nat -> Z;
  isMobileSafari : bool
}.

Section Editor.
Context `{Ext : Externals}.

(** [class Editor] *)
Record t : Type := mkEditor {
  openPages : gmap string PageState;
  editorView : option EditorView;
  viewState : AppViewState;
  space : Space;
  saveTimeout : option Z;
  system : System Host;
  mdExtensions : list MDExt;
  collabState : option CollabState;
  runtime : Runtime;
  space_calls : list SpaceCall;
  console : list LogEntry
}.

Definition saveInterval : Z := 1000.

Definition set_openPages (m : gmap string PageState) (e : t) : t :=
  mkEditor m (editorView e) (viewState e) (space e) (saveTimeout e) (system e)
           (mdExtensions e) (collabState e) (runtime e) (space_calls e) (console e).

Definition set_editorView (v : option EditorView) (e : t) : t :=
  mkEditor (openPages e) v (viewState e) (space e) (saveTimeout e) (system e)
           (mdExtensions e) (collabState e) (runtime e) (space_calls e) (console e).

Definition set_viewState (v : AppViewState) (e : t) : t :=
  mkEditor (openPages e) (editorView e) v (space e) (saveTimeout e) (system e)
           (mdExtensions e) (collabState e) (runtime e) (space_calls e) (console e).

Definition set_space (s : Space) (e : t) : t :=
  mkEditor (openPages e) (editorView e) (viewState e) s (saveTimeout e)
           (system e) (mdExtensions e) (collabState e) (runtime e)
           (space_calls e) (console e).

Definition set_saveTimeout (o : option Z) (e : t) : t :=
  mkEditor (openPages e) (editorView e) (viewState e) (space e) o (system e)
           (mdExtensions e) (collabState e) (runtime e) (space_calls e) (console e).

Definition set_system (s : System Host) (e : t) : t :=
  mkEditor (openPages e) (editorView e) (viewState e) (space e) (saveTimeout e)
           s (mdExtensions e) (collabState e) (runtime e) (space_calls e) (console e).

Definition set_mdExtensions (m : list MDExt) (e : t) : t :=
  mkEditor (openPages e) (editorView e) (viewState e) (space e) (saveTimeout e)
           (system e) m (collabState e) (runtime e) (space_calls e) (console e).

Definition set_collabState (c : option CollabState) (e : t) : t :=
  mkEditor (openPages e) (editorView e) (viewState e) (space e) (saveTimeout e)
           (system e) (mdExtensions e) c (runtime e) (space_calls e) (console e).

Definition set_runtime (r : Runtime) (e : t) : t :=
  mkEditor (openPages e) (editorView e) (viewState e) (space e) (saveTimeout e)
           (system e) (mdExtensions e) (collabState e) r (space_calls e) (console e).

Definition record_space_call (c : SpaceCall) (e : t) : t :=
  mkEditor (openPages e) (editorView e) (viewState e) (space e) (saveTimeout e)
           (system e) (mdExtensions e) (collabState e) (runtime e)
           (space_calls e ++ [c]) (console e).

(** [console.log] and [console.error] as the editor calls them.  The
    console is kept by writer: what the editor writes is here, what the
    runtime writes is in the runtime's [console]. *)
Definition console_log (msg : string) (e : t) : t :=
  mkEditor (openPages e) (editorView e) (viewState e) (space e) (saveTimeout e)
           (system e) (mdExtensions e) (collabState e) (runtime e)
           (space_calls e) (console e ++ [Log msg]).

Definition console_error (msg : string) (e : t) : t :=
  mkEditor (openPages e) (editorView e) (viewState e) (space e) (saveTimeout e)
           (system e) (mdExtensions e) (collabState e) (runtime e)
           (space_calls e) (console e ++ [Error msg]).

(** [this.viewDispatch(action)] *)
Definition viewDispatch (a : Action) (e : t) : t :=
  set_viewState (reducer (viewState e) a) e.

(** [setTimeout(callback, delay)] *)
Definition setTimeout (cb : TimerCallback) (delay : Z) (e : t) : Z * t :=
  let r := runtime e in
  let i := next_timer r in
  (i, set_runtime (mkRuntime (clock r)
                             (timers r ++ [mkTimer i (clock r + delay) cb])
                             (i + 1) (settled r) (next_promise r)
                             (random_calls r)) e).

(** [clearTimeout(id)] *)
Definition clearTimeout (i : Z) (e : t) : t :=
  let r := runtime e in
  set_runtime (mkRuntime (clock r)
                         (List.filter (fun tm => negb (timer_id tm =? i)) (timers r))
                         (next_timer r) (settled r) (next_promise r)
                         (random_calls r)) e.

(** [new Promise(...)]: a fresh promise, not settled. *)
Definition new_promise (e : t) : nat * t :=
  let r := runtime e in
  (next_promise r,
   set_runtime (mkRuntime (clock r) (timers r) (next_timer r) (settled r)
                          (S (next_promise r)) (random_calls r)) e).

(** [resolve()] and [reject(e)]; a settled promise stays as it is. *)
Definition settle (p : nat) (st : Settlement) (e : t) : t :=
  let r := runtime e in
  match settled r !! p with
  | Some _ => e
  | None =>
    set_runtime (mkRuntime (clock r) (timers r) (next_timer r)
                           (<[p := st]> (settled r)) (next_promise r)
                           (random_calls r)) e
  end.

(** [Math.floor(Math.random() * 1000000)] *)
Definition random (e : t) : Z * t :=
  let r := runtime e in
  (random_id (random_calls r),
   set_runtime (mkRuntime (clock r) (timers r) (next_timer r) (settled r)
                          (next_promise r) (S (random_calls r))) e).

(** *** Methods *)

Definition get_currentPage (e : t) : option string :=
  currentPage (viewState e).

Definition save (immediate : bool) (e : t) : nat * t :=
  let '(p, e) := new_promise e in
  let e := match saveTimeout e with
           | Some i => if negb (i =? 0) then clearTimeout i e else e
           | None => e
           end in
  let '(i, e) := setTimeout (SaveTick p) (if immediate then 0 else saveInterval) e in
  (p, set_saveTimeout (Some i) e).

Definition flashNotification (msg : string) (ty : NotificationType) (e : t) : t :=
  let '(i, e) := random e in
  let e := viewDispatch
             (show_notification (mkNotification i ty msg (clock (runtime e)))) e in
  snd (setTimeout (DismissTick i)
                  (match ty with info => 2000 | error => 5000 end) e).

(** The timer callback of [save]. *)
Definition save_tick (p : nat) (e : t) : t :=
  match get_currentPage e with
  | Some page =>
    if negb (String.eqb page "") then
      if negb (unsavedChanges (viewState e)) || forcedROMode (viewState e) then
        (* No unsaved changes, or read-only mode, not gonna save *)
        settle p Resolved e
      else
        let e := console_log ("Saving page " +:+ page) e in
        match editorView e with
        | None => e (* [this.editorView!] throws in the callback *)
        | Some v =>
          let text := doc (state v) in
          let e := record_space_call (WritePage page text true) e in
          match writePage (space e) page text true with
          | Ok (sp, _) =>
            let e := viewDispatch page_saved (set_space sp e) in
            settle p Resolved e
          | Thrown err =>
            let e := flashNotification
                       "Could not save page, retrying again in 10 seconds"
                       error e in
            let '(i, e) := setTimeout SaveRetry 10000 e in
            settle p (Rejected err) (set_saveTimeout (Some i) e)
          end
        end
    else settle p Resolved e
  | None => settle p Resolved e
  end.

(** *** The event loop *)

(** Runs a timer's callback.  [this.save.bind(this)] is called with no
    argument, so [immediate] takes its default. *)
Definition run_callback (cb : TimerCallback) (e : t) : t :=
  match cb with
  | SaveTick p => save_tick p e
  | SaveRetry => snd (save false e)
  | DismissTick i => viewDispatch (dismiss_notification i) e
  end.

(** The timer [tm] fires: it leaves the timer table, the clock has reached
    its due time, its callback runs. *)
Definition fire (tm : Timer) (e : t) : t :=
  let r := runtime e in
  let e := set_runtime
             (mkRuntime (Z.max (clock r) (due tm))
                        (List.filter (fun x => negb (timer_id x =? timer_id tm)) (timers r))
                        (next_timer r) (settled r) (next_promise r)
                        (random_calls r)) e in
  run_callback (callback tm) e.

(** The pending timer that fires next: the earliest due, the one armed
    first among equals. *)
Fixpoint earliest (ts : list Timer) : option Timer :=
  match ts with
  | [] => None
  | tm :: ts' =>
    match earliest ts' with
    | Some tm' => if due tm' <? due tm then Some tm' else Some tm
    | None => Some tm
    end
  end.

Definition step (e : t) : option t :=
  (fun tm => fire tm e) <$> earliest (timers (runtime e)).

(** Time passes up to [until]: the timers due by then fire in order.
    [None] when [fuel] firings were not enough. *)
Fixpoint run_until (fuel : nat) (until : Z) (e : t) : option t :=
  match earliest (timers (runtime e)) with
  | Some tm =>
    if due tm <=? until then
      match fuel with
      | O => None
      | S n => run_until n until (fire tm e)
      end
    else
      let r := runtime e in
      Some (set_runtime (mkRuntime (Z.max (clock r) until) (timers r)
                                   (next_timer r) (settled r) (next_promise r)
                                   (random_calls r)) e)
  | None =>
    let r := runtime e in
    Some (set_runtime (mkRuntime (Z.max (clock r) until) (timers r)
                                 (next_timer r) (settled r) (next_promise r)
                                 (random_calls r)) e)
  end.

(** [await p]: the loop runs until [p] is settled.  [None] when it is not
    settled after [fuel] firings or no timer is left to fire. *)
Fixpoint await (fuel : nat) (p : nat) (e : t) : option (Settlement * t) :=
  match settled (runtime e) !! p with
  | Some st => Some (st, e)
  | None =>
    match fuel with
    | O => None
    | S n =>
      match step e with
      | Some e' => await n p e'
      | None => None
      end
    end
  end.

(** *** Events and commands *)

(** [dispatchAppEvent(name, data)] hands the event to the event hook. *)
Definition dispatchAppEvent (name : string) (data : Js.Value) (e : t)
  : list Js.Value * t :=
  let '(results, sys) := dispatchEvent name data (system e) in
  (results, set_system sys e).

(** Modelled from the spec: the [run] of a command entry calls the owning
    plugin's function (web/hooks/command.ts builds it and is the missing
    part). *)
Definition run_command (c : AppCommand) (e : t) : Outcome * t :=
  let '(o, sys) := invoke (cmd_plug c) (cmd_function c) [] (system e) in
  (o, set_system sys e).

(** [this.editorView!.focus()] *)
Definition focus (e : t) : t :=
  match editorView e with
  | Some v =>
    set_editorView
      (Some (mkEditorView (state v) (scrollDOM_scrollTop v) (contentDOM v) true)) e
  | None => e
  end.

Definition selection_empty (s : EditorSelection) : bool := anchor s =? head s.

(** The name of the syntax node at the cursor; undefined when text is
    selected. *)
Definition getContext (e : t) : option string :=
  match editorView e with
  | Some v =>
    let sel := state_selection (state v) in
    if selection_empty sel
    then Some (nodeNameAt (doc (state v)) (Z.min (anchor sel) (head sel)))
    else None
  | None => None
  end.

(** [e.message] of the error a failed command rejects with. *)
Definition failure_message (f : Failure) : string :=
  match f with
  | TimedOut => "timed out"
  | Trapped => "trapped"
  | ThrownError msg => msg
  end.

(** The chain [Promise.resolve().then(def.run).catch(...).then(...)] of a
    command key binding, run to its end. *)
Definition run_chain (def : AppCommand) (e : t) : t :=
  let '(o, e) := run_command def e in
  let e := match o with
           | Returned _ => e
           | Failed f =>
             let e := console_error (failure_message f) e in
             flashNotification ("Error running command: " +:+ failure_message f)
                               error e
           end in
  (* Always be focusing the editor after running a command *)
  focus e.

(** The [run] of the key binding [createEditorState] makes for [def]. *)
Definition commandKeyRun (def : AppCommand) (e : t) : bool * t :=
  match contexts (command def) with
  | Some cs =>
    let context := getContext e in
    if negb (Js.truthy_str context)
       || negb (Js.includes cs (default "" context))
    then (false, e)
    else (true, run_chain def e)
  | None => (true, run_chain def e)
  end.

(** A command gets a key binding when it declares a [key]. *)
Definition key_binding_of (def : AppCommand) : option KeyBinding :=
  match key (command def) with
  | Some k =>
    if negb (String.eqb k "") then Some (mkKeyBinding k (mac (command def)) def)
    else None
  | None => None
  end.

Definition createEditorState (pageName text : string) (e : t) : EditorState :=
  let bindings := omap key_binding_of (JsMap.values (commandHook (system e))) in
  mkEditorState (match collabState e with
                 | Some c => ytext c
                 | None => text
                 end)
                (mkSelection 0 0) bindings.

(** *** Page state *)

Definition tweakEditorDOM (readOnly : bool) (d : ContentDOM) (e : t)
  : ContentDOM :=
  mkContentDOM true "on" "on"
               (if readOnly || forcedROMode (viewState e) then "false" else "true")
               (isMobileSafari && readOnly).

Definition setState (st : EditorState) (v : EditorView) : EditorView :=
  mkEditorView st (scrollDOM_scrollTop v) (contentDOM v) (hasFocus v).

(** [editorView.dispatch({ selection, scrollIntoView: true })] *)
Definition dispatch_selection (sel : EditorSelection) (v : EditorView)
  : EditorView :=
  mkEditorView (mkEditorState (doc (state v)) sel (commandKeyBindings (state v)))
               (scrollDOM_scrollTop v) (contentDOM v) (hasFocus v).

Definition set_scrollTop (z : Z) (v : EditorView) : EditorView :=
  mkEditorView (state v) z (contentDOM v) (hasFocus v).

Definition restoreState (pageName : string) (e : t) : bool * t :=
  let pageState := openPages e !! pageName in
  match editorView e with
  | None => (bool_decide (is_Some pageState), e) (* callers have a view *)
  | Some v =>
    let v := match pageState with
             | Some ps =>
               dispatch_selection (selection ps) (set_scrollTop (scrollTop ps) v)
             | None =>
               dispatch_selection (mkSelection 0 0) (set_scrollTop 0 v)
             end in
    (bool_decide (is_Some pageState), focus (set_editorView (Some v) e))
  end.

Definition saveState (page : string) (e : t) : t :=
  match editorView e with
  | None => e
  | Some v =>
    set_openPages
      (<[page := mkPageState (scrollDOM_scrollTop v) (state_selection (state v))]>
         (openPages e)) e
  end.

(** *** Plugs *)

(** The [commandsUpdated] listener the constructor puts on the command
    hook. *)
Definition commandsUpdated (e : t) : t :=
  viewDispatch (update_commands (commandHook (system e))) e.

Definition rebuildEditorState (e : t) : t :=
  let e := console_log "Rebuilding editor state" e in
  match editorView e, get_currentPage e with
  | Some v, Some page =>
    if negb (String.eqb page "") then
      let e := console_log "Getting all syntax extensions" e in
      let e := set_mdExtensions (loadMarkdownExtensions (system e)) e in
      (* And reload the syscalls to use the new syntax extensions *)
      let e := set_system
                 (registerSyscalls [] [markdownSyscalls (mdExtensions e)] (system e))
                 e in
      let e := saveState page e in
      let v := setState (createEditorState page (doc (state v)) e) v in
      let v := mkEditorView (state v) (scrollDOM_scrollTop v)
                 (tweakEditorDOM (String.eqb (view_perm (viewState e)) "ro")
                                 (contentDOM v) e)
                 (hasFocus v) in
      snd (restoreState page (set_editorView (Some v) e))
    else e
  | _, _ => e
  end.

(** One element of the [Promise.all] of [reloadPlugs]: read the plug and
    load it.  Every element runs; the first failure is the one
    [Promise.all] rejects with. *)
Definition load_one (acc : option JsError * t) (plugName : string)
  : option JsError * t :=
  let '(failure, e) := acc in
  let first x := match failure with Some y => Some y | None => Some x end in
  match readPlug (space e) plugName with
  | Thrown x => (first x, e)
  | Ok m =>
    match load m createSandbox (system e) with
    | (Loaded, sys) => (failure, commandsUpdated (set_system sys e))
    | (r, sys) => (first (PlugError plugName r), set_system sys e)
    end
  end.

Definition reloadPlugs (e : t) : Result unit * t :=
  let e := console_log "Loading plugs" e in
  match updatePageList (space e) with
  | Thrown x => (Thrown x, e)
  | Ok (sp, pages) =>
    let e := viewDispatch (pages_listed pages) (set_space sp e) in
    let e := commandsUpdated (set_system (unloadAll (system e)) e) in
    let e := console_log "(Re)loading plugs" e in
    match listPlugs (space e) with
    | Thrown x => (Thrown x, e)
    | Ok plugNames =>
      match foldl load_one (None, e) plugNames with
      | (Some x, e) => (Thrown x, e)
      | (None, e) =>
        let e := rebuildEditorState e in
        let '(_, e) := dispatchAppEvent "plugs:loaded" Js.Undefined e in
        (Ok tt, e)
      end
    end
  end.

(** *** Completion *)

(** The loop of [completer] over the results of [page:complete]. *)
Fixpoint completer_loop (results : list Js.Value) (actualResult : Js.Value)
    (e : t) : Js.Value * t :=
  match results with
  | [] => (actualResult, e)
  | result :: rest =>
    if Js.truthy result then
      if Js.truthy actualResult then
        (Js.Null,
         console_error
           "Got completion results from multiple sources, cannot deal with that"
           e)
      else completer_loop rest result e
    else completer_loop rest actualResult e
  end.

Definition completer (e : t) : Js.Value * t :=
  let '(results, e) := dispatchAppEvent "page:complete" Js.Undefined e in
  completer_loop results Js.Null e.

(** *** Loading a page *)

(** "Persist current page state and nicely close page": the first block
    of [loadPage]. *)
Definition closePage (fuel : nat) (pageName : string) (e : t)
  : option (Result unit * t) :=
  match get_currentPage e with
  | Some previousPage =>
    if negb (String.eqb previousPage "") then
      let e := saveState previousPage e in
      let e := set_space (unwatchPage (space e) previousPage) e in
      if negb (String.eqb previousPage pageName) then
        let '(p, e) := save true e in
        match await fuel p e with
        | None => None
        | Some (Rejected x, e) => Some (Thrown x, e)
        | Some (Resolved, e) =>
          (* And stop the collab session *)
          Some (Ok tt, set_collabState None e)
        end
      else Some (Ok tt, e)
    else Some (Ok tt, e)
  | None => Some (Ok tt, e)
  end.

Definition loadPage (fuel : nat) (pageName : string) (e : t)
  : option (Result bool * t) :=
  let loadingDifferentPage :=
    negb (bool_decide (get_currentPage e = Some pageName)) in
  match editorView e with
  | None => Some (Ok false, e)
  | Some _ =>
    match closePage fuel pageName e with
    | None => None
    | Some (Thrown x, e) => Some (Thrown x, e)
    | Some (Ok _, e) =>
      let e := viewDispatch (page_loading pageName) e in
      (* Fetch next page to open *)
      let '(d, e) :=
        match readPage (space e) pageName with
        | Ok d => (d, e)
        | Thrown _ =>
          (* Not found, new page *)
          (("", mkPageMeta pageName 0 "rw"),
           console_log ("Creating new page " +:+ pageName) e)
        end in
      let editorState := createEditorState pageName d.1 e in
      let e :=
        match editorView e with
        | Some v =>
          let v := setState editorState v in
          set_editorView
            (Some (mkEditorView (state v) (scrollDOM_scrollTop v)
                     (tweakEditorDOM (String.eqb (perm d.2) "ro") (contentDOM v) e)
                     (hasFocus v))) e
        | None => e
        end in
      let '(stateRestored, e) := restoreState pageName e in
      let e := set_space (watchPage (space e) pageName) e in
      let e := viewDispatch (page_loaded d.2) e in
      let '(_, e) :=
        if loadingDifferentPage
        then dispatchAppEvent "editor:pageLoaded" (Js.String pageName) e
        else dispatchAppEvent "editor:pageReloaded" (Js.String pageName) e in
      Some (Ok stateRestored, e)
    end
  end.

(** *** Reloading the page *)

(** [reloadPage]: the pending save is dropped and the current page is
    loaded again.  The only caller has checked that a page is current
    ([this.currentPage!]); a call without one is outside the model. *)
Definition reloadPage (fuel : nat) (e : t) : option (Result bool * t) :=
  let e := console_log "Reloading page" e in
  let e := match saveTimeout e with
           | Some i => clearTimeout i e
           | None => e
           end in
  match get_currentPage e with
  | Some page => loadPage fuel page e
  | None => None
  end.

(** The [pageChanged] listener that [init] puts on the space.  The reload
    it starts is not awaited; it is run to its end here. *)
Definition pageChanged (fuel : nat) (meta : PageMeta) (e : t) : option t :=
  if bool_decide (get_currentPage e = Some (meta_name meta)) then
    let e := console_log "Page changed on disk, reloading" e in
    let e := flashNotification "Page changed on disk, reloading" info e in
    snd <$> reloadPage fuel e
  else Some e.

(** *** Construction *)

(** The constructor: a client-side runtime with the host syscalls
    registered, an editor view on an empty document, nothing armed. *)
Definition new (sp : Space) : t :=
  let sys := registerSyscalls [] hostSyscalls (new_system client) in
  let e := mkEditor ∅ None initialViewState sp None sys [] None
                    (mkRuntime 0 [] 1 ∅ O O) [] [] in
  set_editorView
    (Some (mkEditorView (createEditorState "" "" e) 0
                        (mkContentDOM false "" "" "true" false) false)) e.

(** *** Commands by name *)

Definition runCommandByName (name : string) (e : t) : Result Js.Value * t :=
  match JsMap.get name (commands (viewState e)) with
  | Some cmd =>
    let '(o, e) := run_command cmd e in
    match o with
    | Returned _ => (Ok Js.Undefined, e)
    | Failed f => (Thrown (SandboxError f), e)
    end
  | None => (Thrown (Err ("Command " +:+ name +:+ " not found")), e)
  end.

End Editor.

End Editor.

(** ** A small instance: an in-memory space and scripted sandboxes

    Used to run the definitions on concrete inputs. *)

Module Sample.
Import Manifest Plugos Editor.

Record MemSpace : Type := mkMemSpace {
  pages : gmap string (string * Z);
  plugs : list (string * Manifest.t);
  online : bool
}.

Definition mem_readPage (sp : MemSpace) (n : string)
  : Result (string * PageMeta) :=
  match pages sp !! n with
  | Some (text, modified) => Ok (text, mkPageMeta n modified "rw")
  | None => Thrown (Err ("Could not read page " +:+ n))
  end.

Definition mem_writePage (sp : MemSpace) (n text : string) (selfUpdate : bool)
  : Result (MemSpace * PageMeta) :=
  if online sp
  then Ok (mkMemSpace (<[n := (text, 1)]> (pages sp)) (plugs sp) true,
           mkPageMeta n 1 "rw")
  else Thrown (Err "Could not write page").

Definition mem_readPlug (sp : MemSpace) (n : string) : Result Manifest.t :=
  match List.find (fun nm : string * Manifest.t => String.eqb nm.1 n) (plugs sp) with
  | Some nm => Ok nm.2
  | None => Thrown (Err ("Could not read attachment " +:+ n))
  end.

Definition mem_reducer (v : AppViewState) (a : Action) : AppViewState :=
  match a with
  | update_commands c =>
    mkViewState (currentPage v) (view_perm v) (forcedROMode v) (isLoading v)
                (unsavedChanges v) (allPages v) c (notifications v)
  | show_notification n =>
    mkViewState (currentPage v) (view_perm v) (forcedROMode v) (isLoading v)
                (unsavedChanges v) (allPages v) (commands v)
                (notifications v ++ [n])
  | dismiss_notification i =>
    mkViewState (currentPage v) (view_perm v) (forcedROMode v) (isLoading v)
                (unsavedChanges v) (allPages v) (commands v)
                (List.filter (fun n => negb (id n =? i)) (notifications v))
  | pages_listed ps =>
    mkViewState (currentPage v) (view_perm v) (forcedROMode v) (isLoading v)
                (unsavedChanges v) ps (commands v) (notifications v)
  | page_changed =>
    mkViewState (currentPage v) (view_perm v) (forcedROMode v) (isLoading v)
                true (allPages v) (commands v) (notifications v)
  | page_saved =>
    mkViewState (currentPage v) (view_perm v) (forcedROMode v) (isLoading v)
                false (allPages v) (commands v) (notifications v)
  | page_loading _ =>
    mkViewState (currentPage v) (view_perm v) (forcedROMode v) true
                (unsavedChanges v) (allPages v) (commands v) (notifications v)
  | page_loaded m =>
    mkViewState (Some (meta_name m)) (perm m) (forcedROMode v) false
                false (allPages v) (commands v) (notifications v)
  end.

(** A sandbox whose functions answer from a script. *)
Definition scripted (script : list (string * Outcome)) : Sandbox :=
  mkSandbox (fun f _ =>
               match List.find (fun fo : string * Outcome => String.eqb fo.1 f) script with
               | Some fo => fo.2
               | None => Returned Js.Undefined
               end).

(** One completion source answers, one throws. *)
Definition quiet_script : list (string * Outcome) :=
  [ ("pageComplete", Returned (Js.Object [("from", Js.Number 0)]));
    ("commandComplete", Returned Js.Null);
    ("tagComplete", Failed (ThrownError "tag index unavailable"));
    ("anchorComplete", Returned Js.Null);
    ("statsCommand", Returned (Js.Number 42));
    ("unfurlLink", Returned Js.Undefined);
    ("readPageSearch", Returned (Js.String "# Search results")) ].

(** Two completion sources answer. *)
Definition chatty_script : list (string * Outcome) :=
  [ ("pageComplete", Returned (Js.Object [("from", Js.Number 0)]));
    ("commandComplete", Returned (Js.Object [("from", Js.Number 2)])) ].

Definition a_syscall (v : Js.Value) : SyscallImpl unit :=
  fun _ h => (Returned v, h).

#[global] Instance mem_externals : Externals := {|
  Space := MemSpace;
  Host := unit;
  readPage := mem_readPage;
  writePage := mem_writePage;
  updatePageList sp :=
    Ok (sp, (fun '(n, (_, modified)) => mkPageMeta n modified "rw")
              <$> map_to_list (pages sp));
  listPlugs sp := Ok (plugs sp).*1;
  readPlug := mem_readPlug;
  watchPage sp _ := sp;
  unwatchPage sp _ := sp;
  reducer := mem_reducer;
  initialViewState := mkViewState None "rw" false false false [] JsMap.empty [];
  hostSyscalls := [[("event.dispatch", a_syscall Js.Undefined)]];
  createSandbox _ := Some (scripted quiet_script);
  loadMarkdownExtensions sys := flat_map (fun p => syntax (manifest p)) (loadedPlugs sys);
  markdownSyscalls exts :=
    [("markdown.parseMarkdown", a_syscall (Js.Number (Z.of_nat (length exts))))];
  nodeNameAt d pos :=
    if String.prefix "http" (String.substring (Z.to_nat pos) 4 d)
    then "NakedURL" else "Paragraph";
  random_id n := Z.of_nat n;
  isMobileSafari := false
|}.

Definition a_space : MemSpace :=
  mkMemSpace {[ "index" := ("Hello", 7) ]} [("_plug/core.plug.json", core)] true.

(** A plug that claims every page name for [readFile]. *)
Definition catch_all : Manifest.t :=
  mkManifest "catchall" [] []
             [("readAny", with_namespace ".+" "readFile" (fn "./any.ts:readAny"))].

(** Plugs loaded in the given order into a fresh client runtime. *)
Definition loaded (ms : list Manifest.t) : System unit :=
  loadAll ms (fun _ => Some (scripted quiet_script)) (new_system client).

(** The core plug loaded into a fresh client runtime. *)
Definition core_system (script : list (string * Outcome)) : System unit :=
  (load core (fun _ => Some (scripted script)) (new_system client)).2.

(** A started editor: plugs loaded, the index page open. *)
Definition with_page (page text : string) (unsaved : bool) (e : Editor.t)
  : Editor.t :=
  let e := set_viewState
             (mkViewState (Some page) "rw" false false unsaved []
                          (commandHook (system e)) []) e in
  match editorView e with
  | Some v =>
    set_editorView
      (Some (setState (mkEditorState text (mkSelection 0 0)
                                     (commandKeyBindings (state v))) v)) e
  | None => e
  end.

Definition started : Editor.t :=
  with_page "index" "Hello" false (reloadPlugs (Editor.new a_space)).2.

End Sample.

(** * Vocabulary of the properties *)

(** ** Of the runtime *)

Section RuntimeVocabulary.
Context {Host : Type}.
Import Manifest Plugos.
Implicit Types (s : System Host) (p : LoadedPlugin) (r : PlugRef).

(** *** Event dispatch *)

(** What the call to one subscriber comes to in system [s]. *)
Definition answer_of (s : System Host) (payload : Js.Value) (sub : Subscriber)
  : Outcome :=
  match lookup_plug sub.1 s with
  | Some p => run (sandbox p) sub.2 [payload]
  | None => Failed Trapped
  end.

Definition live (s : System Host) (sub : Subscriber) : Prop :=
  is_Some (lookup_plug sub.1 s).

Definition result_of (o : Outcome) : option Js.Value :=
  match o with
  | Returned v => Some v
  | Failed _ => None
  end.

Definition report_of (ev : string) (sub : Subscriber) (o : Outcome)
  : option LogEntry :=
  match o with
  | Returned _ => None
  | Failed f => Some (SubscriberFailed ev sub f)
  end.

Definition call_of (s : System Host) (payload : Js.Value) (sub : Subscriber)
  : option Invocation :=
  match lookup_plug sub.1 s with
  | Some _ => Some (mkInvocation sub.1 sub.2 [payload])
  | None => None
  end.

(** *** Page namespaces *)

Definition claims (op name : string) (h : NamespaceHandler) : bool :=
  String.eqb (ns_operation h) op && Regex.test (ns_pattern h) name.

(** *** Load generations *)

(** [r] is the handle of a loaded plug. *)
Definition loaded_ref (ps : list LoadedPlugin) (r : PlugRef) : Prop :=
  exists p, p ∈ ps /\ ref_of p = r.

(** [r] is the handle of a loaded plug whose manifest has a function [f]. *)
Definition refers (ps : list LoadedPlugin) (r : PlugRef) (f : string) : Prop :=
  exists p, p ∈ ps /\ ref_of p = r /\ f ∈ (functions (manifest p)).*1.

Definition subscriptions_ok s : Prop :=
  forall ev subs (sub : Subscriber),
    eventHook s !! ev = Some subs -> sub ∈ subs ->
    refers (loadedPlugs s) sub.1 sub.2.

Definition caches_ok s : Prop :=
  commandHook s = build_commands (loadedPlugs s)
  /\ slashCommandHook s = flat_map slash_of (loadedPlugs s)
  /\ namespaceHook s = flat_map handlers_of (loadedPlugs s).

Definition syscalls_ok s : Prop :=
  forall n (b : Binding Host) r,
    registeredSyscalls s !! n = Some b -> owner b = Some r ->
    loaded_ref (loadedPlugs s) r.

(** The tables of the runtime speak of loaded plugs only. *)
Definition well_formed s : Prop :=
  subscriptions_ok s /\ caches_ok s /\ syscalls_ok s.

(** Every loaded plug is of the current load generation. *)
Definition current s : Prop :=
  forall p, p ∈ loadedPlugs s -> plug_generation p = generation s.

(** The plugs, the generation and the syscall registry are the same. *)
Definition same_plugs s s' : Prop :=
  loadedPlugs s' = loadedPlugs s
  /\ generation s' = generation s
  /\ registeredSyscalls s' = registeredSyscalls s
  /\ runtimeEnv s' = runtimeEnv s.

(** Every subscription, command entry and plugin-owned syscall binding
    is of a loaded plug of the current generation, with the function it
    names in that plug's manifest; a handle of any other generation reaches
    no sandbox. *)
Definition no_stale_entries (s : System Host) : Prop :=
  (forall ev (sub : Subscriber),
      sub ∈ subscribers ev s ->
      sub.1.2 = generation s /\ refers (loadedPlugs s) sub.1 sub.2)
  /\ (forall c,
         c ∈ JsMap.values (commandHook s) ->
         (cmd_plug c).2 = generation s
         /\ refers (loadedPlugs s) (cmd_plug c) (cmd_function c))
  /\ (forall n (b : Binding Host) r,
         registeredSyscalls s !! n = Some b -> owner b = Some r ->
         r.2 = generation s /\ loaded_ref (loadedPlugs s) r)
  /\ (forall r f args,
         r.2 <> generation s -> invoke r f args s = (Failed Trapped, s)).

End RuntimeVocabulary.

(** ** Of the editor *)

Section EditorVocabulary.
Context `{Ext : Editor.Externals}.
Import Editor.

(** *** Completion *)

Definition ambiguity_message : string :=
  "Got completion results from multiple sources, cannot deal with that".

(** The answers of a dispatch: its results that are not empty (truthy). *)
Definition answers (results : list Js.Value) : list Js.Value :=
  List.filter Js.truthy results.

(** *** Saving *)

(** What [save] and the passing of time leave alone. *)
Definition same_document (e e' : Editor.t) : Prop :=
  viewState e' = viewState e
  /\ editorView e' = editorView e
  /\ space e' = space e
  /\ space_calls e' = space_calls e
  /\ system e' = system e.

(** Timer ids are positive, and [saveTimeout] holds an id that has been
    given out. *)
Definition timers_ok (e : Editor.t) : Prop :=
  0 < next_timer (runtime e)
  /\ forall j, saveTimeout e = Some j -> 0 < j < next_timer (runtime e).

(** Time passes by [g] and no timer fires. *)
Definition pass (g : Z) (e : Editor.t) : option Editor.t :=
  run_until O (clock (runtime e) + g) e.

(** A burst of triggers: [save()] is called, and again after each gap. *)
Fixpoint burst (gaps : list Z) (e : Editor.t) : option Editor.t :=
  match gaps with
  | [] => Some (save false e).2
  | g :: gaps' =>
    match pass g (save false e).2 with
    | Some e' => burst gaps' e'
    | None => None
    end
  end.

(** Exactly one timer is pending: the save timer [saveTimeout] names, due
    at [d], whose promise is the latest one made. *)
Definition armed (d : Z) (e : Editor.t) : Prop :=
  exists i p,
    timers (runtime e) = [mkTimer i d (SaveTick p)]
    /\ saveTimeout e = Some i
    /\ 0 < i < next_timer (runtime e)
    /\ next_promise (runtime e) = S p.

(** What a burst of triggers and a single trigger come to. *)
Definition debounced (e : Editor.t) (gaps : list Z) : Prop :=
  exists e' i p,
    burst gaps e = Some e'
    /\ timers (runtime e')
       = [mkTimer i (clock (runtime e') + saveInterval) (SaveTick p)]
    /\ saveTimeout e' = Some i
    /\ next_promise (runtime e') = S p
    /\ space_calls e' = space_calls e
    /\ forall page v,
        get_currentPage e = Some page -> page <> "" ->
        unsavedChanges (viewState e) = true ->
        forcedROMode (viewState e) = false ->
        editorView e = Some v ->
        exists e'',
          run_until 1 (clock (runtime e') + saveInterval) e' = Some e''
          /\ space_calls e''
             = space_calls e ++ [WritePage page (doc (state v)) true].

Definition rearmed (imm : bool) (x : Editor.t) : Prop :=
  let x' := (save imm x).2 in
  (forall j, saveTimeout x = Some j ->
             Forall (fun tm => timer_id tm <> j) (timers (runtime x')))
  /\ saveTimeout x' = Some (next_timer (runtime x))
  /\ mkTimer (next_timer (runtime x))
             (clock (runtime x) + (if imm then 0 else saveInterval))
             (SaveTick (save imm x).1)
     ∈ timers (runtime x').

(** *** Loading a page *)

(** What timers and saving leave alone: the saved page states, the editor
    view and the collaboration session. *)
Definition same_pages (e e' : Editor.t) : Prop :=
  openPages e' = openPages e
  /\ editorView e' = editorView e
  /\ collabState e' = collabState e.

(** The page states after the first block of [loadPage]: the state of the
    page being left has been saved, nothing else has changed. *)
Definition pages_after_close (e : Editor.t) : gmap string PageState :=
  match get_currentPage e, editorView e with
  | Some previousPage, Some v =>
    if negb (String.eqb previousPage "")
    then <[previousPage :=
             mkPageState (scrollDOM_scrollTop v) (state_selection (state v))]>
           (openPages e)
    else openPages e
  | _, _ => openPages e
  end.

(** The view shows the saved scroll position and selection, or the top of
    the page when there is none. *)
Definition restored_to (ps : option PageState) (v : EditorView) : Prop :=
  scrollDOM_scrollTop v = match ps with Some s => scrollTop s | None => 0 end
  /\ state_selection (state v)
     = match ps with Some s => selection s | None => mkSelection 0 0 end.

(** *** Promises and timers *)

(** The promise [p] is pending and no timer is left that would settle
    it. *)
Definition orphaned (p : nat) (e : Editor.t) : Prop :=
  settled (runtime e) !! p = None
  /\ (p < next_promise (runtime e))%nat
  /\ Forall (fun tm => callback tm <> SaveTick p) (timers (runtime e)).

(** The promise ids not yet given out are unused: none is settled and no
    timer waits for one. *)
Definition promises_fresh (e : Editor.t) : Prop :=
  forall q, (next_promise (runtime e) <= q)%nat ->
            settled (runtime e) !! q = None
            /\ Forall (fun tm => callback tm <> SaveTick q) (timers (runtime e)).

(** Every pending timer is the one [saveTimeout] names. *)
Definition only_save_timer (e : Editor.t) : Prop :=
  forall tm, tm ∈ timers (runtime e) ->
             saveTimeout e = Some (timer_id tm) /\ timer_id tm <> 0.

(** *** Key bindings *)

(** The command declares a key. *)
Definition has_key (def : AppCommand) : bool :=
  match Manifest.key (Plugos.command def) with
  | Some k => negb (String.eqb k "")
  | None => false
  end.

End EditorVocabulary.

(** * Properties *)

(** ** Checks of the definitions on concrete inputs *)

Example utf16_glyph : Utf16.code_units "🔍 t" = [0xD83D; 0xDD0D; 0x20; 0x74].
Proof. reflexivity. Qed.

Example regex_search_glyph :
  (fun r => Regex.test r "🔍 test") <$> Regex.RegExp "🔍 .+" = Some true.
Proof. vm_compute. reflexivity. Qed.

Example regex_search_normal :
  (fun r => Regex.test r "normal.md") <$> Regex.RegExp "🔍 .+" = Some false.
Proof. vm_compute. reflexivity. Qed.

Example regex_needs_a_unit :
  (fun r => Regex.test r "🔍 ") <$> Regex.RegExp "🔍 .+" = Some false.
Proof. vm_compute. reflexivity. Qed.

Example core_function_count : length Manifest.core_functions = 62%nat.
Proof. reflexivity. Qed.

Example sample_started_plugs :
  length (Plugos.loadedPlugs (Editor.system Sample.started)) = 1%nat.
Proof. vm_compute. reflexivity. Qed.

Example sample_started_subscribers :
  (Plugos.subscribers "page:complete" (Editor.system Sample.started)).*2
  = ["pageComplete"; "commandComplete"; "tagComplete"; "anchorComplete"].
Proof. vm_compute. reflexivity. Qed.

(** ** Auxiliary facts *)

Lemma Js_includes_spec l x : Js.includes l x = true <-> x ∈ l.
Proof.
  induction l as [|y l IH]; simpl.
  - split; [discriminate | intros H; inversion H].
  - destruct (String.eqb_spec y x) as [->|Hne].
    + split; [intros _; left | reflexivity].
    + rewrite IH. split; [intros H; by right |].
      intros H. inversion H; subst; [congruence | done].
Qed.

Lemma Js_truthy_str_Some o : Js.truthy_str o = true <-> exists s, o = Some s /\ s <> "".
Proof.
  destruct o as [s|]; simpl.
  - destruct (String.eqb_spec s ""); simpl; split.
    + discriminate.
    + intros (s' & [= <-] & Hne). congruence.
    + eauto.
    + reflexivity.
  - split; [discriminate | intros (s & H & _); discriminate].
Qed.

Section JsMapFacts.
Context {V : Type}.
Implicit Types (m : JsMap.t V) (v : V).

Lemma JsMap_get_set_eq k v m : JsMap.get k (JsMap.set k v m) = Some v.
Proof.
  induction m as [|[k' v'] m IH]; simpl.
  - by rewrite String.eqb_refl.
  - destruct (String.eqb_spec k' k) as [->|Hne]; simpl.
    + by rewrite String.eqb_refl.
    + destruct (String.eqb_spec k' k); [congruence | done].
Qed.

Lemma JsMap_get_set_ne k k' v m :
  k <> k' -> JsMap.get k' (JsMap.set k v m) = JsMap.get k' m.
Proof.
  intros Hne. induction m as [|[k0 v0] m IH]; simpl.
  - destruct (String.eqb_spec k k'); [congruence | done].
  - destruct (String.eqb_spec k0 k) as [->|Hk]; simpl.
    + destruct (String.eqb_spec k k'); [congruence | done].
    + destruct (String.eqb_spec k0 k'); [done | apply IH].
Qed.

Lemma JsMap_get_Some_values k v m : JsMap.get k m = Some v -> v ∈ JsMap.values m.
Proof.
  induction m as [|[k' v'] m IH]; simpl; [discriminate |].
  destruct (String.eqb k' k).
  - intros [= ->]. left.
  - intros H. right. by apply IH.
Qed.

End JsMapFacts.

(** Reading a pair, or an optional pair, off its first component. *)
Lemma pair_of_fst {A B : Type} (x : A * B) (a : A) : x.1 = a -> x = (a, x.2).
Proof. destruct x. simpl. by intros ->. Qed.

Lemma some_pair_of_fst {A B : Type} (o : option (A * B)) (a : A) (d : A * B) :
  fst <$> o = Some a -> o = Some (a, (default d o).2).
Proof. destruct o as [[x y]|]; simpl; [by intros [= ->] | done]. Qed.

Lemma with_page_system page text unsaved (e : Editor.t) :
  Editor.system (Sample.with_page page text unsaved e) = Editor.system e.
Proof. unfold Sample.with_page. simpl. by destruct (Editor.editorView e). Qed.

(** ** Completion: the single-answer aggregator *)

Section Completer.
Context `{Ext : Editor.Externals}.
Import Editor.

Lemma completer_loop_answered results acc e :
  Js.truthy acc = true ->
  completer_loop results acc e =
    match answers results with
    | [] => (acc, e)
    | _ :: _ => (Js.Null, console_error ambiguity_message e)
    end.
Proof.
  intros Hacc. induction results as [|r rest IH]; simpl; [done |].
  unfold answers in *. simpl. destruct (Js.truthy r) eqn:Hr.
  - by rewrite Hacc.
  - apply IH.
Qed.

Lemma completer_loop_unanswered results acc e :
  Js.truthy acc = false ->
  completer_loop results acc e =
    match answers results with
    | [] => (acc, e)
    | [r] => (r, e)
    | _ :: _ :: _ => (Js.Null, console_error ambiguity_message e)
    end.
Proof.
  revert acc. induction results as [|r rest IH]; intros acc Hacc; simpl; [done |].
  unfold answers in *. simpl. destruct (Js.truthy r) eqn:Hr.
  - rewrite Hacc, completer_loop_answered by done.
    unfold answers. by destruct (List.filter Js.truthy rest).
  - by apply IH.
Qed.

End Completer.

(** C4. For the single-answer event [page:complete], when exactly one
    subscriber result is not empty the completer returns that result and
    logs nothing; when two or more are not empty it logs the ambiguity as
    an error and returns null, whichever results they are. *)
Theorem completer_single_answer `{Ext : Editor.Externals}
    (e e1 : Editor.t) (results : list Js.Value) :
  Editor.dispatchAppEvent "page:complete" Js.Undefined e = (results, e1) ->
  (forall r, answers results = [r] -> Editor.completer e = (r, e1))
  /\ ((2 <= length (answers results))%nat ->
      Editor.completer e
      = (Js.Null, Editor.console_error ambiguity_message e1)
      /\ Editor.console (Editor.completer e).2
         = Editor.console e1 ++ [Plugos.Error ambiguity_message]).
Proof.
  intros Hd. unfold Editor.completer. rewrite Hd.
  rewrite completer_loop_unanswered by done. split.
  - intros r ->. done.
  - intros Hlen. destruct (answers results) as [|a [|b l]]; simpl in Hlen; try lia.
    split; reflexivity.
Qed.

(** The core plug with one answering completion source (and one that
    throws): the completer returns the answer. *)
Lemma completer_single_answer_witness :
  let e := Sample.started in
  let out := Editor.dispatchAppEvent "page:complete" Js.Undefined e in
  out = (out.1, out.2)
  /\ answers out.1 = [Js.Object [("from", Js.Number 0)]]
  /\ Editor.completer e = (Js.Object [("from", Js.Number 0)], out.2).
Proof.
  intros e out.
  assert (Hout : out = (out.1, out.2)) by (by destruct out).
  split; [exact Hout |]. split; [vm_compute; reflexivity |].
  apply (proj1 (completer_single_answer e out.2 out.1 Hout)).
  vm_compute. reflexivity.
Defined.

(** ** Commands: by name and by key *)

Section Commands.
Context `{Ext : Editor.Externals}.
Import Plugos Editor.

Lemma run_command_live (c : AppCommand) (e : Editor.t) (p : LoadedPlugin) :
  lookup_plug (cmd_plug c) (system e) = Some p ->
  run_command c e
  = (run (sandbox p) (cmd_function c) [],
     set_system (record_invocation
                   (mkInvocation (cmd_plug c) (cmd_function c) []) (system e)) e).
Proof. intros H. unfold run_command, invoke. by rewrite H. Qed.

Lemma run_command_stale (c : AppCommand) (e : Editor.t) :
  lookup_plug (cmd_plug c) (system e) = None ->
  run_command c e = (Failed Trapped, set_system (system e) e).
Proof. intros H. unfold run_command, invoke. by rewrite H. Qed.

Lemma run_chain_invocations (def : AppCommand) (e : Editor.t) (p : LoadedPlugin) :
  lookup_plug (cmd_plug def) (system e) = Some p ->
  invocations (system (run_chain def e))
  = invocations (system e) ++ [mkInvocation (cmd_plug def) (cmd_function def) []].
Proof.
  intros H. unfold run_chain. rewrite (run_command_live _ _ _ H).
  destruct (run (sandbox p) (cmd_function def) []) as [v|f]; unfold focus; simpl;
    by destruct (editorView e).
Qed.

End Commands.

(** C7, where the code differs: the command below returns 42 from its
    sandbox, and running it by name completes with [undefined]. *)
Lemma runCommandByName_discards_result :
  (exists cmd,
      JsMap.get "Stats: Show" (Editor.commands (Editor.viewState Sample.started))
      = Some cmd
      /\ (Editor.run_command cmd Sample.started).1
         = Plugos.Returned (Js.Number 42))
  /\ (Editor.runCommandByName "Stats: Show" Sample.started).1
     = Editor.Ok Js.Undefined
  /\ (Editor.runCommandByName "Stats: Show" Sample.started).1
     <> Editor.Ok (Js.Number 42).
Proof.
  split; [eexists; split; vm_compute; reflexivity |].
  split; [vm_compute; reflexivity | vm_compute; discriminate].
Qed.

(** C7, as the code has it.  When the command table has an entry of that
    name, running by name is running the entry: the state afterwards is
    that of the entry's [run]; the call completes with no value whatever
    the command returned, and throws the command's failure when it failed.
    For a name that is not in the table the call throws "Command <name>
    not found" and the editor is as before. *)
Theorem runCommandByName_runs_entry `{Ext : Editor.Externals}
    (name : string) (e : Editor.t) :
  (forall cmd,
      JsMap.get name (Editor.commands (Editor.viewState e)) = Some cmd ->
      (Editor.runCommandByName name e).2 = (Editor.run_command cmd e).2
      /\ (forall v, (Editor.run_command cmd e).1 = Plugos.Returned v ->
                    (Editor.runCommandByName name e).1 = Editor.Ok Js.Undefined)
      /\ (forall f, (Editor.run_command cmd e).1 = Plugos.Failed f ->
                    (Editor.runCommandByName name e).1
                    = Editor.Thrown (Editor.SandboxError f))
      /\ (forall p, Plugos.lookup_plug (Plugos.cmd_plug cmd) (Editor.system e) = Some p ->
                    Plugos.invocations (Editor.system (Editor.runCommandByName name e).2)
                    = Plugos.invocations (Editor.system e)
                      ++ [Plugos.mkInvocation (Plugos.cmd_plug cmd)
                                              (Plugos.cmd_function cmd) []]))
  /\ (JsMap.get name (Editor.commands (Editor.viewState e)) = None ->
      Editor.runCommandByName name e
      = (Editor.Thrown (Editor.Err ("Command " +:+ name +:+ " not found")), e)).
Proof.
  split.
  - intros cmd Hget. unfold Editor.runCommandByName. rewrite Hget.
    destruct (Editor.run_command cmd e) as [o e'] eqn:Hrun. simpl.
    repeat split.
    + by destruct o.
    + intros v ->. done.
    + intros f ->. done.
    + intros p Hp. rewrite (run_command_live _ _ _ Hp) in Hrun.
      injection Hrun as _ <-. by destruct o.
  - intros Hget. unfold Editor.runCommandByName. by rewrite Hget.
Qed.

(** C8.  The key binding of a command that declares contexts runs the
    command exactly when the editor has a syntax context and the context
    is in the declared list; otherwise the handler returns false and the
    editor is untouched, so the command body has not run.  The key binding
    of a command without a contexts declaration always returns true.
    Whenever the handler returns true the command's chain has run, and for
    a live plugin that is one call of the command's function. *)
Theorem commandKeyRun_context_filter `{Ext : Editor.Externals}
    (def : Editor.AppCommand) (e : Editor.t) :
  (forall cs,
      Manifest.contexts (Plugos.command def) = Some cs ->
      ((Editor.commandKeyRun def e).1 = true <->
       exists ctx, Editor.getContext e = Some ctx /\ ctx <> "" /\ ctx ∈ cs)
      /\ ((Editor.commandKeyRun def e).1 = false ->
          (Editor.commandKeyRun def e).2 = e))
  /\ (Manifest.contexts (Plugos.command def) = None ->
      (Editor.commandKeyRun def e).1 = true)
  /\ ((Editor.commandKeyRun def e).1 = true ->
      (Editor.commandKeyRun def e).2 = Editor.run_chain def e
      /\ forall p,
          Plugos.lookup_plug (Plugos.cmd_plug def) (Editor.system e) = Some p ->
          Plugos.invocations (Editor.system (Editor.commandKeyRun def e).2)
          = Plugos.invocations (Editor.system e)
            ++ [Plugos.mkInvocation (Plugos.cmd_plug def)
                                    (Plugos.cmd_function def) []]).
Proof.
  assert (Hruns : forall p,
             Plugos.lookup_plug (Plugos.cmd_plug def) (Editor.system e) = Some p ->
             Plugos.invocations (Editor.system (Editor.run_chain def e))
             = Plugos.invocations (Editor.system e)
               ++ [Plugos.mkInvocation (Plugos.cmd_plug def)
                                       (Plugos.cmd_function def) []])
    by (intros p Hp; by apply run_chain_invocations with p).
  unfold Editor.commandKeyRun.
  destruct (Manifest.contexts (Plugos.command def)) as [cs|] eqn:Hcs.
  - destruct (Editor.getContext e) as [ctx|] eqn:Hctx; simpl.
    + destruct (String.eqb_spec ctx "") as [->|Hne]; simpl.
      { split; [| split]; [| done | done].
        intros cs' [= <-]. split; [| done]. split; [done |].
        intros (c & [= <-] & Hc & _). done. }
      destruct (Js.includes cs ctx) eqn:Hin; simpl.
      * split; [| split]; [| done | done].
        intros cs' [= <-]. split; [| done]. split; [| done].
        intros _. exists ctx. by rewrite <- Js_includes_spec.
      * split; [| split]; [| done | done].
        intros cs' [= <-]. split; [| done]. split; [done |].
        intros (c & [= <-] & _ & Hc). apply Js_includes_spec in Hc. congruence.
    + split; [| split]; [| done | done].
      intros cs' [= <-]. split; [| done]. split; [done |].
      intros (c & Hc & _). done.
  - simpl. split; [done |]. split; done.
Qed.

Example unfurlLink_on_url :
  (fun def => (Editor.commandKeyRun def
                 (Sample.with_page "index" "https://silverbullet.md" false
                                   Sample.started)).1)
    <$> JsMap.get "Link: Unfurl" (Plugos.commandHook (Editor.system Sample.started))
  = Some true.
Proof. vm_compute. reflexivity. Qed.

Example unfurlLink_on_text :
  (fun def => (Editor.commandKeyRun def Sample.started).1)
    <$> JsMap.get "Link: Unfurl" (Plugos.commandHook (Editor.system Sample.started))
  = Some false.
Proof. vm_compute. reflexivity. Qed.

(** ** Event dispatch: fault isolation *)

Section Dispatch.
Context {Host : Type}.
Import Plugos.

Lemma answer_of_ext (s1 s2 : System Host) payload sub :
  loadedPlugs s1 = loadedPlugs s2 ->
  answer_of s1 payload sub = answer_of s2 payload sub.
Proof. intros H. unfold answer_of, lookup_plug. by rewrite H. Qed.

Lemma call_of_ext (s1 s2 : System Host) payload sub :
  loadedPlugs s1 = loadedPlugs s2 ->
  call_of s1 payload sub = call_of s2 payload sub.
Proof. intros H. unfold call_of, lookup_plug. by rewrite H. Qed.

Lemma invoke_eq r f payload (s : System Host) :
  invoke r f [payload] s
  = (answer_of s payload (r, f),
     match call_of s payload (r, f) with
     | Some i => record_invocation i s
     | None => s
     end).
Proof. unfold invoke, answer_of, call_of. simpl. by destruct (lookup_plug r s). Qed.

(** The whole of what a dispatch does, subscriber by subscriber. *)
Lemma dispatch_to_spec ev subs payload (s : System Host) :
  let out := dispatch_to ev subs payload s in
  out.1 = omap (fun sub => result_of (answer_of s payload sub)) subs
  /\ console out.2
     = console s ++ omap (fun sub => report_of ev sub (answer_of s payload sub)) subs
  /\ invocations out.2 = invocations s ++ omap (call_of s payload) subs
  /\ loadedPlugs out.2 = loadedPlugs s
  /\ eventHook out.2 = eventHook s
  /\ generation out.2 = generation s.
Proof.
  revert s. induction subs as [|[r f] rest IH]; intros s.
  { simpl. by rewrite !app_nil_r. }
  cbn [dispatch_to fst snd omap list_omap]. rewrite invoke_eq.
  destruct (answer_of s payload (r, f)) as [v|fl] eqn:Hans;
    destruct (call_of s payload (r, f)) as [i|] eqn:Hcall;
    cbn [result_of report_of].
  - specialize (IH (record_invocation i s)).
    destruct (dispatch_to ev rest payload _) as [vs s2].
    simpl in *. destruct IH as (-> & -> & -> & -> & -> & ->).
    rewrite <- app_assoc. done.
  - specialize (IH s).
    destruct (dispatch_to ev rest payload _) as [vs s2].
    simpl in *. by destruct IH as (-> & -> & -> & -> & -> & ->).
  - specialize (IH (write_console (SubscriberFailed ev (r, f) fl)
                                  (record_invocation i s))).
    destruct (dispatch_to ev rest payload _) as [vs s2].
    simpl in *. destruct IH as (-> & -> & -> & -> & -> & ->).
    rewrite <- !app_assoc. done.
  - specialize (IH (write_console (SubscriberFailed ev (r, f) fl) s)).
    destruct (dispatch_to ev rest payload _) as [vs s2].
    simpl in *. destruct IH as (-> & -> & -> & -> & -> & ->).
    rewrite <- !app_assoc. done.
Qed.

Lemma omap_all_returned (s : System Host) ev payload (l : list Subscriber) :
  Forall (fun x => exists v, answer_of s payload x = Returned v) l ->
  Forall2 (fun x v => answer_of s payload x = Returned v) l
          (omap (fun sub => result_of (answer_of s payload sub)) l)
  /\ omap (fun sub => report_of ev sub (answer_of s payload sub)) l = [].
Proof.
  induction 1 as [|x l [v Hv] _ [IH1 IH2]]; cbn [omap list_omap]; [by split |].
  rewrite Hv. cbn [result_of report_of]. split; [by constructor | done].
Qed.

Lemma omap_all_live (s : System Host) payload (l : list Subscriber) :
  Forall (live s) l ->
  omap (call_of s payload) l
  = map (fun x : Subscriber => mkInvocation x.1 x.2 [payload]) l.
Proof.
  induction 1 as [|x l [p Hp] _ IH]; cbn [omap list_omap map]; [done |].
  unfold call_of at 1. rewrite Hp. by rewrite <- IH.
Qed.

End Dispatch.

(** C1.  An event has the live subscribers [pre ++ sub :: post], in
    registration order; the call to [sub] fails (it throws, traps or times
    out) and the calls to the others return.  Then dispatching the event
    returns one result less than there are subscribers: the results of
    [pre ++ post], in that order.  The failure is logged, once, and every
    subscriber has been called, those after the failing one too. *)
Theorem dispatchAppEvent_fault_isolation `{Ext : Editor.Externals}
    (e : Editor.t) (ev : string) (payload : Js.Value)
    (pre post : list Plugos.Subscriber) (sub : Plugos.Subscriber)
    (fl : Plugos.Failure) :
  Plugos.subscribers ev (Editor.system e) = pre ++ sub :: post ->
  Forall (live (Editor.system e)) (pre ++ sub :: post) ->
  answer_of (Editor.system e) payload sub = Plugos.Failed fl ->
  Forall (fun x => exists v,
              answer_of (Editor.system e) payload x = Plugos.Returned v)
         (pre ++ post) ->
  let out := Editor.dispatchAppEvent ev payload e in
  length out.1 = (length (pre ++ sub :: post) - 1)%nat
  /\ Forall2 (fun x v => answer_of (Editor.system e) payload x = Plugos.Returned v)
             (pre ++ post) out.1
  /\ Plugos.console (Editor.system out.2)
     = Plugos.console (Editor.system e) ++ [Plugos.SubscriberFailed ev sub fl]
  /\ Plugos.invocations (Editor.system out.2)
     = Plugos.invocations (Editor.system e)
       ++ map (fun x : Plugos.Subscriber => Plugos.mkInvocation x.1 x.2 [payload])
              (pre ++ sub :: post).
Proof.
  intros Hsubs Hlive Hfail Hok out. subst out.
  unfold Editor.dispatchAppEvent, Plugos.dispatchEvent. rewrite Hsubs.
  pose proof (dispatch_to_spec ev (pre ++ sub :: post) payload (Editor.system e))
    as (Hres & Hlog & Hinv & _).
  destruct (Plugos.dispatch_to ev (pre ++ sub :: post) payload (Editor.system e))
    as [results sys]. cbn [fst snd] in *.
  replace (Editor.system (Editor.set_system sys e)) with sys by done.
  apply Forall_app in Hok as [Hpre Hpost].
  destruct (omap_all_returned (Editor.system e) ev payload pre Hpre) as [Rpre Lpre].
  destruct (omap_all_returned (Editor.system e) ev payload post Hpost) as [Rpost Lpost].
  rewrite omap_app in Hres. rewrite omap_app in Hlog.
  cbn [omap list_omap] in Hres, Hlog.
  rewrite Hfail in Hres, Hlog. cbn [result_of report_of] in Hres, Hlog.
  rewrite Lpre, Lpost in Hlog. simpl in Hlog.
  assert (HF : Forall2 (fun x v => answer_of (Editor.system e) payload x = Plugos.Returned v)
                       (pre ++ post) results).
  { rewrite Hres. by apply Forall2_app. }
  repeat split.
  - apply Forall2_length in HF. rewrite <- HF, !length_app. simpl. lia.
  - exact HF.
  - exact Hlog.
  - rewrite Hinv. f_equal. by apply omap_all_live.
Qed.

(** The four completion sources of the core plug, the third of which
    throws: three results, one failure logged, four calls made. *)
Lemma dispatchAppEvent_fault_isolation_witness :
  let e := Sample.started in
  let pre := [("core", 1%nat, "pageComplete"); ("core", 1%nat, "commandComplete")] in
  let sub := ("core", 1%nat, "tagComplete") in
  let post := [("core", 1%nat, "anchorComplete")] in
  let fl := Plugos.ThrownError "tag index unavailable" in
  let out := Editor.dispatchAppEvent "page:complete" Js.Undefined e in
  Plugos.subscribers "page:complete" (Editor.system e) = pre ++ sub :: post
  /\ length out.1 = 3%nat
  /\ Plugos.console (Editor.system out.2)
     = Plugos.console (Editor.system e)
       ++ [Plugos.SubscriberFailed "page:complete" sub fl].
Proof.
  intros e pre sub post fl out.
  assert (Hsubs : Plugos.subscribers "page:complete" (Editor.system e)
                  = pre ++ sub :: post) by (vm_compute; reflexivity).
  assert (Hlive : Forall (live (Editor.system e)) (pre ++ sub :: post)).
  { repeat constructor; vm_compute; eauto. }
  assert (Hfail : answer_of (Editor.system e) Js.Undefined sub = Plugos.Failed fl)
    by (vm_compute; reflexivity).
  assert (Hok : Forall (fun x => exists v,
                          answer_of (Editor.system e) Js.Undefined x
                          = Plugos.Returned v) (pre ++ post)).
  { repeat constructor; eexists; vm_compute; reflexivity. }
  destruct (dispatchAppEvent_fault_isolation e "page:complete" Js.Undefined
              pre post sub fl Hsubs Hlive Hfail Hok) as (Hlen & _ & Hlog & _).
  split; [exact Hsubs |]. split; [exact Hlen | exact Hlog].
Defined.

(** ** Syscalls: the environment boundary *)

Section Syscalls.
Context {Host : Type}.
Import Plugos.

Lemma syscall_mismatch (s : System Host) (n : string) (b : Binding Host)
    (declared caller : Manifest.Env) (args : list Js.Value) (h : Host) :
  registeredSyscalls s !! n = Some b ->
  required_env b = Some declared ->
  declared <> caller ->
  syscall caller n args h s = (EnvironmentMismatch, h, s).
Proof.
  intros Hb Henv Hne. unfold syscall. rewrite Hb. unfold env_allows.
  rewrite Henv. by rewrite bool_decide_eq_false_2.
Qed.

Lemma register_lookup (s : System Host) n e i :
  registeredSyscalls (register n e i s) !! n = Some (mkBinding i e [] None).
Proof. unfold register. simpl. apply lookup_insert_eq. Qed.

End Syscalls.

(** C2.  A syscall is registered for one environment and called from a
    sandbox of a runtime in the other (server-only called from client, or
    client-only called from server).  The call fails with
    [EnvironmentMismatch]; the host state and the runtime are as before the
    call, and the trace of executed implementations has not grown: the
    implementation was not run, whatever it is. *)
Theorem syscall_environment_boundary {Host : Type}
    (s : Plugos.System Host) (n : string) (declared : Manifest.Env)
    (i : Plugos.SyscallImpl Host) (args : list Js.Value) (h : Host) :
  declared <> Plugos.runtimeEnv s ->
  let s' := Plugos.register n (Some declared) i s in
  Plugos.sandbox_syscall n args h s' = (Plugos.EnvironmentMismatch, h, s')
  /\ Plugos.executed (Plugos.sandbox_syscall n args h s').2 = Plugos.executed s.
Proof.
  intros Hne s'. unfold Plugos.sandbox_syscall.
  rewrite (syscall_mismatch s' n _ declared (Plugos.runtimeEnv s') args h
             (register_lookup s n (Some declared) i) eq_refl Hne).
  done.
Qed.

(** A server-only syscall in the editor's client-side runtime. *)
Lemma syscall_environment_boundary_witness :
  let s := Editor.system (Editor.new Sample.a_space) in
  let s' := Plugos.register "shell.run" (Some Manifest.server)
                            (Sample.a_syscall (Js.Number 1)) s in
  Manifest.server <> Plugos.runtimeEnv s
  /\ Plugos.sandbox_syscall "shell.run" [] tt s'
     = (Plugos.EnvironmentMismatch, tt, s').
Proof.
  intros s s'.
  assert (Hne : Manifest.server <> Plugos.runtimeEnv s) by (vm_compute; discriminate).
  split; [exact Hne |].
  exact (proj1 (syscall_environment_boundary s "shell.run" Manifest.server
                  (Sample.a_syscall (Js.Number 1)) [] tt Hne)).
Defined.

Example syscall_same_environment_runs :
  let s := Plugos.register "shell.run" (Some Manifest.client)
             (Sample.a_syscall (Js.Number 1))
             (Editor.system (Editor.new Sample.a_space)) in
  (Plugos.sandbox_syscall "shell.run" [] tt s).1.1
  = Plugos.SysReturned (Js.Number 1)
  /\ Plugos.executed (Plugos.sandbox_syscall "shell.run" [] tt s).2
     = [("shell.run", [])].
Proof. vm_compute. split; reflexivity. Qed.

(** ** Page namespaces *)

Section Namespaces.
Context {Host : Type}.
Import Plugos.

Lemma first_handler_skips op name pre (hs : list NamespaceHandler) :
  Forall (fun h => claims op name h = false) pre ->
  first_handler op name (pre ++ hs) = first_handler op name hs.
Proof.
  induction 1 as [|h pre Hh _ IH]; simpl; [done |].
  unfold claims in Hh. by rewrite Hh.
Qed.

Lemma performOperation_first (s : System Host) op name args pre h post p :
  namespaceHook s = pre ++ h :: post ->
  Forall (fun x => claims op name x = false) pre ->
  claims op name h = true ->
  lookup_plug (ns_plug h) s = Some p ->
  performOperation op name args s
  = (Some (run (sandbox p) (ns_function h) (Js.String name :: args)),
     record_invocation
       (mkInvocation (ns_plug h) (ns_function h) (Js.String name :: args)) s).
Proof.
  intros Hhook Hpre Hh Hp. unfold performOperation.
  rewrite Hhook, first_handler_skips by done. simpl.
  unfold claims in Hh. rewrite Hh. unfold invoke. by rewrite Hp.
Qed.

Lemma performOperation_none (s : System Host) op name args :
  Forall (fun x => claims op name x = false) (namespaceHook s) ->
  performOperation op name args s = (None, s).
Proof.
  intros H. unfold performOperation.
  rewrite <- (app_nil_r (namespaceHook s)), first_handler_skips by done. done.
Qed.

End Namespaces.

(** C6.  With the core plug loaded, whose [readPageSearch] declares the
    page namespace ["🔍 .+"] for [readFile]: a [readFile] of ["🔍 test"] is
    answered by a call of [readPageSearch], a [readFile] of ["normal.md"]
    calls no handler at all.  In general the call goes to the first handler
    in the table that has the requested operation and a matching pattern,
    whatever stands after it. *)
Theorem page_namespace_routing {Host : Type} :
  (forall (factory : Plugos.SandboxFactory) (sb : Plugos.Sandbox)
          (args : list Js.Value),
      factory Manifest.core = Some sb ->
      let s : Plugos.System Host :=
        (Plugos.load Manifest.core factory (Plugos.new_system Manifest.client)).2 in
      Plugos.performOperation "readFile" "🔍 test" args s
      = (Some (Plugos.run sb "readPageSearch" (Js.String "🔍 test" :: args)),
         Plugos.record_invocation
           (Plugos.mkInvocation ("core", O) "readPageSearch"
                                (Js.String "🔍 test" :: args)) s)
      /\ Plugos.performOperation "readFile" "normal.md" args s = (None, s))
  /\ (forall (s : Plugos.System Host) op name args pre h post p,
         Plugos.namespaceHook s = pre ++ h :: post ->
         Forall (fun x => claims op name x = false) pre ->
         claims op name h = true ->
         Plugos.lookup_plug (Plugos.ns_plug h) s = Some p ->
         Plugos.performOperation op name args s
         = (Some (Plugos.run (Plugos.sandbox p) (Plugos.ns_function h)
                             (Js.String name :: args)),
            Plugos.record_invocation
              (Plugos.mkInvocation (Plugos.ns_plug h) (Plugos.ns_function h)
                                   (Js.String name :: args)) s)).
Proof.
  split; [| intros; by eapply performOperation_first].
  intros factory sb args Hf s.
  assert (Hs : s = (Plugos.load Manifest.core (fun _ => Some sb)
                                (Plugos.new_system Manifest.client)).2).
  { subst s. unfold Plugos.load. rewrite Hf. reflexivity. }
  clearbody s. subst s. split.
  - vm_compute. reflexivity.
  - vm_compute. reflexivity.
Qed.

Example first_loaded_handler_serves :
  let served (ms : list Manifest.t) (op : string) :=
    (fun i => (Plugos.inv_plug i, Plugos.inv_function i))
      <$> Plugos.invocations
            (Plugos.performOperation op "🔍 test" [] (Sample.loaded ms)).2 in
  served [Manifest.core; Sample.catch_all] "readFile"
  = [("core", O, "readPageSearch")]
  /\ served [Sample.catch_all; Manifest.core] "readFile"
     = [("catchall", O, "readAny")]
  /\ served [Sample.catch_all; Manifest.core] "getFileMeta"
     = [("core", O, "getPageMetaSearch")].
Proof. vm_compute. repeat split. Qed.

(** ** Saving: the debounce timer *)

Section Save.
Context `{Ext : Editor.Externals}.
Import Editor.

Lemma save_same_document imm e : same_document e (save imm e).2.
Proof.
  unfold save, same_document. simpl.
  destruct (saveTimeout e) as [i|]; [destruct (i =? 0) |]; simpl; done.
Qed.

Lemma save_arms imm e :
  let i := next_timer (runtime e) in
  let p := next_promise (runtime e) in
  (save imm e).1 = p
  /\ saveTimeout (save imm e).2 = Some i
  /\ clock (runtime (save imm e).2) = clock (runtime e)
  /\ next_timer (runtime (save imm e).2) = i + 1
  /\ next_promise (runtime (save imm e).2) = S p
  /\ timers (runtime (save imm e).2)
     = match saveTimeout e with
       | Some j =>
         if negb (j =? 0)
         then List.filter (fun tm => negb (timer_id tm =? j)) (timers (runtime e))
         else timers (runtime e)
       | None => timers (runtime e)
       end
       ++ [mkTimer i (clock (runtime e) + (if imm then 0 else saveInterval))
                   (SaveTick p)].
Proof.
  unfold save. simpl.
  destruct (saveTimeout e) as [j|]; [destruct (j =? 0) |]; simpl; done.
Qed.

Lemma save_quiescent e :
  timers (runtime e) = [] -> 0 < next_timer (runtime e) ->
  armed (clock (runtime e) + saveInterval) (save false e).2
  /\ clock (runtime (save false e).2) = clock (runtime e).
Proof.
  intros Hq Hpos.
  destruct (save_arms false e) as (_ & Hst & Hclock & Hnext & Hprom & Htimers).
  split; [| done].
  exists (next_timer (runtime e)), (next_promise (runtime e)).
  rewrite Htimers, Hq, Hst, Hnext, Hprom.
  split; [| split; [done | split; [lia | done]]].
  destruct (saveTimeout e) as [j|]; [destruct (negb (j =? 0)) |]; done.
Qed.

Lemma save_armed d e :
  armed d e ->
  armed (clock (runtime e) + saveInterval) (save false e).2
  /\ clock (runtime (save false e).2) = clock (runtime e).
Proof.
  intros (i & p & Ht & Hst & Hi & Hp).
  destruct (save_arms false e) as (_ & Hst' & Hclock & Hnext & Hprom & Htimers).
  split; [| done].
  exists (next_timer (runtime e)), (next_promise (runtime e)).
  rewrite Htimers, Ht, Hst, Hst', Hnext, Hprom.
  split; [| split; [done | split; [lia | done]]].
  replace (i =? 0) with false by (symmetry; apply Z.eqb_neq; lia).
  simpl. by rewrite Z.eqb_refl.
Qed.

Lemma pass_armed d g e :
  armed d e -> 0 <= g -> clock (runtime e) + g < d ->
  exists e', pass g e = Some e'
             /\ armed d e'
             /\ clock (runtime e') = clock (runtime e) + g
             /\ same_document e e'.
Proof.
  intros (i & p & Ht & Hst & Hi & Hp) Hg Hd.
  unfold pass, run_until. rewrite Ht. simpl.
  replace (d <=? clock (runtime e) + g) with false by (symmetry; apply Z.leb_gt; lia).
  eexists. split; [done |]. split; [| split].
  - exists i, p. simpl. done.
  - simpl. lia.
  - done.
Qed.

Lemma burst_armed gaps : forall e d,
  armed d e \/ (timers (runtime e) = [] /\ 0 < next_timer (runtime e)) ->
  Forall (fun g => 0 <= g < saveInterval) gaps ->
  exists e', burst gaps e = Some e'
             /\ armed (clock (runtime e') + saveInterval) e'
             /\ same_document e e'.
Proof.
  induction gaps as [|g gaps IH]; intros e d Hstart Hgaps.
  - cbn [burst]. eexists. split; [done |].
    pose proof (save_same_document false e) as Hdoc.
    destruct Hstart as [Ha | [Hq Hpos]].
    + destruct (save_armed d e Ha) as [Harm Hclock]. rewrite Hclock. done.
    + destruct (save_quiescent e Hq Hpos) as [Harm Hclock]. rewrite Hclock. done.
  - apply Forall_cons in Hgaps as [Hg Hgaps]. cbn [burst].
    pose proof (save_same_document false e) as Hdoc.
    assert (Harm : armed (clock (runtime e) + saveInterval) (save false e).2
                   /\ clock (runtime (save false e).2) = clock (runtime e)).
    { destruct Hstart as [Ha | [Hq Hpos]];
        [by apply save_armed with d | by apply save_quiescent]. }
    destruct Harm as [Harm Hclock].
    destruct (pass_armed _ g _ Harm) as (e1 & -> & Harm1 & Hclock1 & Hdoc1);
      [lia | lia |].
    destruct (IH e1 _ (or_introl Harm1) Hgaps) as (e' & -> & Harm' & Hdoc').
    exists e'. split; [done |]. split; [done |].
    unfold same_document in *. intuition congruence.
Qed.

Lemma settle_frame p st e :
  same_document e (settle p st e)
  /\ timers (runtime (settle p st e)) = timers (runtime e)
  /\ clock (runtime (settle p st e)) = clock (runtime e)
  /\ saveTimeout (settle p st e) = saveTimeout e.
Proof. unfold settle, same_document. by destruct (settled (runtime e) !! p). Qed.

Lemma settle_settles p st e :
  settled (runtime e) !! p = None ->
  settled (runtime (settle p st e)) !! p = Some st.
Proof. intros H. unfold settle. rewrite H. simpl. apply lookup_insert_eq. Qed.

(** The save timer's callback with something to save: one [writePage] of
    the current document; on failure a notification and a retry are
    armed, five and ten seconds ahead. *)
Lemma save_tick_writes p e page v :
  get_currentPage e = Some page -> page <> "" ->
  unsavedChanges (viewState e) = true ->
  forcedROMode (viewState e) = false ->
  editorView e = Some v ->
  space_calls (save_tick p e)
  = space_calls e ++ [WritePage page (doc (state v)) true]
  /\ clock (runtime (save_tick p e)) = clock (runtime e)
  /\ (timers (runtime (save_tick p e)) = timers (runtime e)
      \/ exists i j n,
          timers (runtime (save_tick p e))
          = timers (runtime e)
            ++ [mkTimer i (clock (runtime e) + 5000) (DismissTick n);
                mkTimer j (clock (runtime e) + 10000) SaveRetry]).
Proof.
  intros Hpage Hne Hunsaved Hro Hview. unfold save_tick.
  rewrite Hpage. destruct (String.eqb_spec page "") as [|_]; [done |].
  rewrite Hunsaved, Hro. cbn [negb orb].
  replace (editorView (console_log ("Saving page " +:+ page) e))
    with (Some v) by (symmetry; exact Hview).
  cbn [space record_space_call console_log set_system].
  destruct (writePage (space e) page (doc (state v)) true) as [[sp m]|err].
  - match goal with |- context [settle p Resolved ?x] =>
      destruct (settle_frame p Resolved x) as ((_ & _ & _ & Hc & _) & Ht & Hk & _)
    end.
    rewrite Hc, Ht, Hk. split; [done |]. split; [done |]. by left.
  - cbn [flashNotification random setTimeout viewDispatch set_viewState
         set_runtime runtime fst snd].
    match goal with |- context [settle p (Rejected err) ?x] =>
      destruct (settle_frame p (Rejected err) x) as ((_ & _ & _ & Hc & _) & Ht & Hk & _)
    end.
    rewrite Hc, Ht, Hk. simpl. split; [done |]. split; [done |].
    right. rewrite <- app_assoc. simpl. eauto.
Qed.

Lemma fire_armed_writes d e page v :
  armed d e -> clock (runtime e) <= d ->
  get_currentPage e = Some page -> page <> "" ->
  unsavedChanges (viewState e) = true ->
  forcedROMode (viewState e) = false ->
  editorView e = Some v ->
  exists e', run_until 1 d e = Some e'
             /\ space_calls e' = space_calls e ++ [WritePage page (doc (state v)) true]
             /\ clock (runtime e') = d.
Proof.
  intros (i & p & Ht & Hst & Hi & Hp) Hd Hpage Hne Hunsaved Hro Hview.
  unfold run_until. rewrite Ht. cbn [earliest due].
  rewrite Z.leb_refl. unfold fire. rewrite Ht.
  cbn [callback run_callback timer_id List.filter due]. rewrite Z.eqb_refl. cbn [negb].
  match goal with |- context [save_tick p ?x] => set (e0 := x) end.
  destruct (save_tick_writes p e0 page v Hpage Hne Hunsaved Hro Hview)
    as (Hcalls & Hclock & Htimers).
  assert (Hc0 : clock (runtime e0) = d) by (subst e0; simpl; lia).
  assert (Ht0 : timers (runtime e0) = []) by done.
  rewrite Hc0 in *. rewrite Ht0 in Htimers.
  destruct Htimers as [Htm | (a & b & n & Htm)]; rewrite Htm.
  - cbn [earliest]. eexists. split; [done |]. split; [exact Hcalls |].
    simpl. lia.
  - cbn [app earliest due].
    replace (d + 10000 <? d + 5000) with false by (symmetry; apply Z.ltb_ge; lia).
    cbn [due].
    replace (d + 5000 <=? d) with false by (symmetry; apply Z.leb_gt; lia).
    eexists. split; [done |]. split; [exact Hcalls |]. simpl. lia.
Qed.

Lemma save_cancels imm e j :
  timers_ok e -> saveTimeout e = Some j ->
  Forall (fun tm => timer_id tm <> j) (timers (runtime (save imm e).2)).
Proof.
  intros [Hpos Hj] Hst. specialize (Hj j Hst).
  destruct (save_arms imm e) as (_ & _ & _ & _ & _ & ->). rewrite Hst.
  replace (j =? 0) with false by (symmetry; apply Z.eqb_neq; lia). cbn [negb].
  apply Forall_app. split.
  - apply Forall_forall. intros tm Hin%list_elem_of_In%filter_In.
    destruct Hin as [_ Hid]. apply negb_true_iff, Z.eqb_neq in Hid. done.
  - repeat constructor. simpl. lia.
Qed.

End Save.

(** C5.  With no timer pending, a burst of [save()] calls, each less than
    the save interval after the one before, leaves a single timer: the one
    the last call armed, due a full interval after that call; nothing has
    been written during the burst, and when that timer fires the document
    is written, once.  Any call of [save] cancels the timer [saveTimeout]
    names and arms a new one, at the full interval, or at delay 0 when
    called with [immediate]. *)
Theorem save_debounce `{Ext : Editor.Externals} (e : Editor.t) (gaps : list Z) :
  Editor.timers (Editor.runtime e) = [] ->
  0 < Editor.next_timer (Editor.runtime e) ->
  Forall (fun g => 0 <= g < Editor.saveInterval) gaps ->
  debounced e gaps
  /\ forall imm x, timers_ok x -> rearmed imm x.
Proof.
  intros Hq Hpos Hgaps. split.
  - destruct (burst_armed gaps e 0 (or_intror (conj Hq Hpos)) Hgaps)
      as (e' & Hb & Harm & Hv & Hview & Hsp & Hcalls & Hsys).
    pose proof Harm as (i & p & Ht & Hst & Hi & Hp).
    exists e', i, p. repeat split; try done.
    intros page v Hpage Hne Hunsaved Hro Hev.
    destruct (fire_armed_writes _ e' page v Harm) as (e'' & Hrun & Hw & _).
    + pose proof Editor.saveInterval. unfold Editor.saveInterval. lia.
    + unfold Editor.get_currentPage. by rewrite Hv.
    + done.
    + by rewrite Hv.
    + by rewrite Hv.
    + by rewrite Hview.
    + exists e''. split; [done |]. by rewrite Hw, Hcalls.
  - intros imm x Hok. unfold rearmed.
    destruct (save_arms imm x) as (Hp & Hst & _ & _ & _ & Ht).
    split; [| split].
    + intros j Hj. by apply save_cancels.
    + done.
    + rewrite Ht, Hp. apply elem_of_app. right. left.
Qed.

(** Three triggers, 300 and 500 milliseconds apart, on a page with unsaved
    changes. *)
Lemma save_debounce_witness :
  let e := Sample.with_page "index" "Hello!" true Sample.started in
  (Editor.timers (Editor.runtime e) = []
   /\ 0 < Editor.next_timer (Editor.runtime e)
   /\ Forall (fun g => 0 <= g < Editor.saveInterval) [300; 500])
  /\ debounced e [300; 500]
  /\ rearmed true e.
Proof.
  intros e.
  assert (Hq : Editor.timers (Editor.runtime e) = []) by (vm_compute; reflexivity).
  assert (Hpos : 0 < Editor.next_timer (Editor.runtime e)) by (vm_compute; reflexivity).
  assert (Hgaps : Forall (fun g => 0 <= g < Editor.saveInterval) [300; 500]).
  { repeat constructor; unfold Editor.saveInterval; lia. }
  split; [exact (conj Hq (conj Hpos Hgaps)) |].
  destruct (save_debounce e [300; 500] Hq Hpos Hgaps) as [Hd Hr].
  split; [exact Hd |]. apply Hr. split; [exact Hpos |].
  intros j Hj. vm_compute in Hj. discriminate.
Defined.

Example save_burst_writes_once :
  let e := Sample.with_page "index" "Hello!" true Sample.started in
  (fun e' => Editor.space_calls e')
    <$> (burst [300; 500] e ≫= Editor.run_until 5 5000)
  = Some [Editor.WritePage "index" "Hello!" true].
Proof. vm_compute. reflexivity. Qed.

(** C9.  The save timer fires while the view state has no unsaved changes,
    or while read-only mode is forced: the space is as before, no
    [writePage] has been issued, and the promise of that [save()] call, if
    it was pending, is resolved. *)
Theorem save_timer_without_changes `{Ext : Editor.Externals}
    (e : Editor.t) (tm : Editor.Timer) (p : nat) :
  Editor.callback tm = Editor.SaveTick p ->
  Editor.unsavedChanges (Editor.viewState e) = false
  \/ Editor.forcedROMode (Editor.viewState e) = true ->
  Editor.space (Editor.fire tm e) = Editor.space e
  /\ Editor.space_calls (Editor.fire tm e) = Editor.space_calls e
  /\ (Editor.settled (Editor.runtime e) !! p = None ->
      Editor.settled (Editor.runtime (Editor.fire tm e)) !! p
      = Some Editor.Resolved).
Proof.
  intros Hcb Hidle. unfold Editor.fire. rewrite Hcb.
  cbn [Editor.run_callback]. unfold Editor.save_tick.
  match goal with |- context [Editor.get_currentPage ?x] => set (e0 := x) end.
  assert (Hflags : negb (Editor.unsavedChanges (Editor.viewState e0))
                   || Editor.forcedROMode (Editor.viewState e0) = true).
  { subst e0. cbn [Editor.viewState Editor.set_runtime].
    destruct Hidle as [-> | ->]; [done | apply orb_true_r]. }
  assert (Hres : forall x, x = Editor.settle p Editor.Resolved e0 ->
             Editor.space x = Editor.space e
             /\ Editor.space_calls x = Editor.space_calls e
             /\ (Editor.settled (Editor.runtime e) !! p = None ->
                 Editor.settled (Editor.runtime x) !! p = Some Editor.Resolved)).
  { intros x ->.
    destruct (settle_frame p Editor.Resolved e0) as ((_ & _ & Hs & Hc & _) & _).
    rewrite Hs, Hc. split; [done |]. split; [done |].
    intros Hp. by apply settle_settles. }
  destruct (Editor.get_currentPage e0) as [page|]; [| by apply Hres].
  destruct (negb (String.eqb page "")); [| by apply Hres].
  rewrite Hflags. by apply Hres.
Qed.

(** The timer armed by [save()] on a page without unsaved changes. *)
Lemma save_timer_without_changes_witness :
  let e := (Editor.save false Sample.started).2 in
  let tm := Editor.mkTimer 1 1000 (Editor.SaveTick 0) in
  (Editor.timers (Editor.runtime e) = [tm]
   /\ Editor.callback tm = Editor.SaveTick 0
   /\ (Editor.unsavedChanges (Editor.viewState e) = false
       \/ Editor.forcedROMode (Editor.viewState e) = true))
  /\ Editor.space (Editor.fire tm e) = Editor.space e
  /\ Editor.space_calls (Editor.fire tm e) = Editor.space_calls e
  /\ (Editor.settled (Editor.runtime e) !! 0%nat = None ->
      Editor.settled (Editor.runtime (Editor.fire tm e)) !! 0%nat
      = Some Editor.Resolved).
Proof.
  intros e tm.
  assert (Hidle : Editor.unsavedChanges (Editor.viewState e) = false
                  \/ Editor.forcedROMode (Editor.viewState e) = true)
    by (left; vm_compute; reflexivity).
  split; [split; [vm_compute; reflexivity | split; [reflexivity | exact Hidle]] |].
  exact (save_timer_without_changes e tm 0%nat eq_refl Hidle).
Defined.

(** ** Loading a page *)

Section LoadPage.
Context `{Ext : Editor.Externals}.
Import Editor.

Lemma same_pages_refl e : same_pages e e.
Proof. done. Qed.

Lemma same_pages_trans e1 e2 e3 :
  same_pages e1 e2 -> same_pages e2 e3 -> same_pages e1 e3.
Proof. unfold same_pages. intuition congruence. Qed.

Lemma settle_pages p st e : same_pages e (settle p st e).
Proof. unfold settle, same_pages. by destruct (settled (runtime e) !! p). Qed.

Lemma save_pages imm e : same_pages e (save imm e).2.
Proof.
  unfold save, same_pages. simpl.
  destruct (saveTimeout e) as [i|]; [destruct (i =? 0) |]; done.
Qed.

Lemma save_tick_pages p e : same_pages e (save_tick p e).
Proof.
  unfold save_tick.
  destruct (get_currentPage e) as [page|]; [| apply settle_pages].
  destruct (negb (String.eqb page "")); [| apply settle_pages].
  destruct (negb (unsavedChanges (viewState e)) || forcedROMode (viewState e));
    [apply settle_pages |].
  destruct (editorView (console_log ("Saving page " +:+ page) e)) as [v|] eqn:Hv;
    [| done].
  destruct (writePage _ _ _ _) as [[sp m]|err].
  - eapply same_pages_trans; [| apply settle_pages]. done.
  - cbn [flashNotification random setTimeout viewDispatch set_viewState
         set_runtime runtime fst snd].
    eapply same_pages_trans; [| apply settle_pages]. done.
Qed.

Lemma fire_pages tm e : same_pages e (fire tm e).
Proof.
  unfold fire. destruct (callback tm); cbn [run_callback].
  - eapply same_pages_trans; [| apply save_tick_pages]. done.
  - eapply same_pages_trans; [| apply save_pages]. done.
  - done.
Qed.

Lemma await_pages fuel : forall p e st e',
  await fuel p e = Some (st, e') -> same_pages e e'.
Proof.
  induction fuel as [|n IH]; intros p e st e'; simpl.
  - destruct (settled (runtime e) !! p); [intros [= _ <-]; done | done].
  - destruct (settled (runtime e) !! p); [intros [= _ <-]; done |].
    unfold step. destruct (earliest (timers (runtime e))) as [tm|]; [| done].
    simpl. intros H. apply IH in H.
    eapply same_pages_trans; [apply fire_pages | exact H].
Qed.

Lemma closePage_pages fuel pageName e r e1 :
  closePage fuel pageName e = Some (r, e1) ->
  openPages e1 = pages_after_close e /\ editorView e1 = editorView e.
Proof.
  unfold closePage, pages_after_close.
  destruct (get_currentPage e) as [prev|]; [| by intros [= _ <-]].
  destruct (negb (String.eqb prev "")); [| intros [= _ <-]; by destruct (editorView e)].
  set (e0 := set_space _ (saveState prev e)).
  assert (H0 : openPages e0
               = match editorView e with
                 | Some v => <[prev := mkPageState (scrollDOM_scrollTop v)
                                                    (state_selection (state v))]>
                               (openPages e)
                 | None => openPages e
                 end
               /\ editorView e0 = editorView e).
  { subst e0. unfold saveState.
    destruct (editorView e) as [v|] eqn:Hv; simpl; by rewrite ?Hv. }
  destruct H0 as [Hop Hev].
  destruct (negb (String.eqb prev pageName)).
  - pose proof (save_pages true e0) as (Hs1 & Hs2 & _).
    destruct (save true e0) as [p e0']. cbn [snd] in Hs1, Hs2.
    destruct (await fuel p e0') as [[st e2]|] eqn:Hawait; [| done].
    apply await_pages in Hawait as (Ha1 & Ha2 & _).
    destruct st; intros [= _ <-]; cbn [openPages editorView set_collabState];
      rewrite Ha1, Ha2, Hs1, Hs2, Hop, Hev; by destruct (editorView e).
  - intros [= _ <-]. rewrite Hop, Hev. by destruct (editorView e).
Qed.

Lemma dispatchAppEvent_frame name data e :
  let e' := (dispatchAppEvent name data e).2 in
  editorView e' = editorView e /\ viewState e' = viewState e
  /\ openPages e' = openPages e /\ space e' = space e.
Proof.
  unfold dispatchAppEvent.
  by destruct (Plugos.dispatchEvent name data (system e)).
Qed.

Lemma pages_after_close_lookup e v pageName :
  editorView e = Some v ->
  is_Some (pages_after_close e !! pageName)
  <-> is_Some (openPages e !! pageName)
      \/ (get_currentPage e = Some pageName /\ pageName <> "").
Proof.
  intros Hv. unfold pages_after_close. rewrite Hv.
  destruct (get_currentPage e) as [prev|].
  2: { split; [by left | intros [H | [H _]]; [done | discriminate]]. }
  destruct (String.eqb_spec prev "") as [->|Hne]; cbn [negb].
  { split; [by left | intros [H | [[= <-] H]]; done]. }
  destruct (decide (prev = pageName)) as [->|Hp].
  - rewrite lookup_insert_eq. split; [by right | by eauto].
  - rewrite lookup_insert_ne by done.
    split; [by left | intros [H | [[= <-] _]]; done].
Qed.

(** [loadPage] once the page being left is closed. *)
Lemma loadPage_after_close fuel pageName e e1 v :
  editorView e = Some v ->
  closePage fuel pageName e = Some (Ok tt, e1) ->
  exists e' v',
    loadPage fuel pageName e
    = Some (Ok (bool_decide (is_Some (pages_after_close e !! pageName))), e')
    /\ editorView e' = Some v'
    /\ restored_to (pages_after_close e !! pageName) v'
    /\ forall err,
        readPage (space e1) pageName = Thrown err ->
        viewState e'
        = reducer (reducer (viewState e1) (page_loading pageName))
                  (page_loaded (mkPageMeta pageName 0 "rw"))
        /\ doc (state v')
           = match collabState e1 with Some c => ytext c | None => "" end.
Proof.
  intros Hv Hclose.
  destruct (closePage_pages _ _ _ _ _ Hclose) as [Hpages Hview].
  rewrite Hv in Hview. unfold loadPage. rewrite Hv, Hclose.
  cbn [viewDispatch space set_viewState].
  set (d := match readPage (space e1) pageName with
            | Ok d => d
            | Thrown _ => ("", mkPageMeta pageName 0 "rw")
            end).
  set (e2 := match readPage (space e1) pageName with
             | Ok _ => viewDispatch (page_loading pageName) e1
             | Thrown _ =>
               console_log ("Creating new page " +:+ pageName)
                           (viewDispatch (page_loading pageName) e1)
             end).
  assert (Hread :
    match readPage (space e1) pageName with
    | Ok d0 => (d0, viewDispatch (page_loading pageName) e1)
    | Thrown _ =>
      (("", mkPageMeta pageName 0 "rw"),
       console_log ("Creating new page " +:+ pageName)
                   (viewDispatch (page_loading pageName) e1))
    end = (d, e2)).
  { subst d e2. by destruct (readPage (space e1) pageName). }
  unfold viewDispatch at 1 in Hread. cbn [set_viewState] in Hread. 
  assert (H2 : editorView e2 = Some v /\ openPages e2 = openPages e1
               /\ collabState e2 = collabState e1
               /\ viewState e2 = reducer (viewState e1) (page_loading pageName)).
  { subst e2. by destruct (readPage (space e1) pageName). }
  destruct H2 as (Hv2 & Hop2 & Hcs2 & Hvs2).
  unfold viewDispatch at 1. cbn [set_viewState]. rewrite Hread.
  rewrite Hv2. unfold restoreState at 1.
  cbn [editorView set_editorView openPages]. rewrite Hop2, Hpages.
  match goal with
  | |- context [if ?b then dispatchAppEvent ?n1 ?a ?x else dispatchAppEvent ?n2 ?a ?x] =>
    pose proof (dispatchAppEvent_frame n1 a x) as F1;
    pose proof (dispatchAppEvent_frame n2 a x) as F2;
    destruct b;
      [destruct (dispatchAppEvent n1 a x) as [r e'] | destruct (dispatchAppEvent n2 a x) as [r e']];
      cbn [snd] in F1, F2
  end.
  - destruct F1 as (Fv & Fs & _). eexists e', _. split; [reflexivity |].
    split; [rewrite Fv; reflexivity |]. split.
    + unfold restored_to. by destruct (pages_after_close e !! pageName).
    + intros err Herr. rewrite Fs. subst d. rewrite Herr.
      split.
      * cbn [viewState focus set_editorView editorView viewDispatch set_viewState set_space snd].
        by rewrite Hvs2.
      * destruct (pages_after_close e !! pageName); cbn; by rewrite Hcs2.
  - destruct F2 as (Fv & Fs & _). eexists e', _. split; [reflexivity |].
    split; [rewrite Fv; reflexivity |]. split.
    + unfold restored_to. by destruct (pages_after_close e !! pageName).
    + intros err Herr. rewrite Fs. subst d. rewrite Herr.
      split.
      * cbn [viewState focus set_editorView editorView viewDispatch set_viewState set_space snd].
        by rewrite Hvs2.
      * destruct (pages_after_close e !! pageName); cbn; by rewrite Hcs2.
Qed.

Lemma settle_is_Some p st e : is_Some (settled (runtime (settle p st e)) !! p).
Proof.
  unfold settle. destruct (settled (runtime e) !! p) eqn:H.
  - by rewrite H.
  - simpl. rewrite lookup_insert_eq. eauto.
Qed.

Lemma save_tick_settles p e v :
  editorView e = Some v -> is_Some (settled (runtime (save_tick p e)) !! p).
Proof.
  intros Hv. unfold save_tick.
  destruct (get_currentPage e) as [page|]; [| apply settle_is_Some].
  destruct (negb (String.eqb page "")); [| apply settle_is_Some].
  destruct (negb (unsavedChanges (viewState e)) || forcedROMode (viewState e));
    [apply settle_is_Some |].
  replace (editorView (console_log ("Saving page " +:+ page) e)) with (Some v)
    by (symmetry; exact Hv).
  destruct (writePage _ _ _ _) as [[sp m]|err]; [apply settle_is_Some |].
  cbn [flashNotification random setTimeout viewDispatch set_viewState
       set_runtime runtime fst snd].
  apply settle_is_Some.
Qed.

(** With no other timer pending, the wait for the immediate save ends at
    the first firing. *)
Lemma closePage_returns fuel pageName e v :
  editorView e = Some v ->
  timers (runtime e) = [] ->
  (0 < fuel)%nat ->
  is_Some (closePage fuel pageName e).
Proof.
  intros Hv Hq Hfuel. unfold closePage.
  destruct (get_currentPage e) as [prev|]; [| eauto].
  destruct (negb (String.eqb prev "")); [| eauto].
  destruct (negb (String.eqb prev pageName)); [| eauto].
  set (e0 := set_space _ (saveState prev e)).
  assert (H0 : editorView e0 = Some v /\ timers (runtime e0) = []).
  { subst e0. unfold saveState. rewrite Hv. done. }
  destruct H0 as [Hv0 Hq0].
  destruct (save_arms true e0) as (Hp & _ & _ & _ & _ & Ht).
  pose proof (save_pages true e0) as (_ & Hv1 & _).
  destruct (save true e0) as [p e1]. cbn [fst snd] in *. rewrite Hq0 in Ht.
  assert (Ht1 : timers (runtime e1)
                = [mkTimer (next_timer (runtime e0)) (clock (runtime e0) + 0)
                           (SaveTick p)]).
  { rewrite Ht, Hp.
    destruct (saveTimeout e0) as [j|]; [destruct (negb (j =? 0)) |]; done. }
  destruct fuel as [|n]; [lia |]. cbn [await].
  destruct (settled (runtime e1) !! p) as [st|]; [destruct st; eauto |].
  unfold step. rewrite Ht1. cbn [earliest fmap option_fmap option_map].
  unfold fire. cbn [callback run_callback].
  match goal with |- context [save_tick p ?x] =>
    pose proof (save_tick_settles p x v) as [st Hst];
    [cbn [editorView set_runtime]; by rewrite Hv1, Hv0 |];
    set (e2 := save_tick p x) in *
  end.
  destruct n; cbn [await]; rewrite Hst; destruct st; eauto.
Qed.

End LoadPage.



Example loadPage_new_page :
  (fun r => (r.1, Editor.currentPage (Editor.viewState r.2)))
    <$> Editor.loadPage 3 "new page" Sample.started
  = Some (Editor.Ok false, Some "new page").
Proof. vm_compute. reflexivity. Qed.

Example loadPage_same_page_again :
  (fun r => r.1) <$> Editor.loadPage 3 "index" Sample.started
  = Some (Editor.Ok true).
Proof. vm_compute. reflexivity. Qed.

Example loadPage_back_and_forth :
  (fun r => r.1)
    <$> (Editor.loadPage 3 "new page" Sample.started
           ≫= fun r => Editor.loadPage 3 "index" r.2)
  = Some (Editor.Ok true).
Proof. vm_compute. reflexivity. Qed.

(** ** Reloading plugs: no stale entry survives *)

Section Reload.
Context {Host : Type}.
Import Manifest Plugos.
Implicit Types (s : System Host) (p : LoadedPlugin) (r : PlugRef).

Lemma new_system_well_formed e : well_formed (new_system e : System Host).
Proof.
  split; [| split].
  - intros ev subs sub H. cbn [new_system eventHook] in H.
    by rewrite lookup_empty in H.
  - done.
  - intros n b r H. cbn [new_system registeredSyscalls] in H.
    by rewrite lookup_empty in H.
Qed.

Lemma keeps_other_refs p r ps :
  p ∈ ps -> ref_of p <> r ->
  p ∈ List.filter (fun q => negb (has_ref r q)) ps.
Proof.
  intros Hin Hne. apply list_elem_of_In, filter_In. split.
  - by apply list_elem_of_In.
  - unfold has_ref. by rewrite bool_decide_eq_false_2.
Qed.

Lemma kept_ref p r ps :
  p ∈ List.filter (fun q => negb (has_ref r q)) ps -> p ∈ ps /\ ref_of p <> r.
Proof.
  intros [Hin Hr]%list_elem_of_In%filter_In. split.
  - by apply list_elem_of_In.
  - unfold has_ref in Hr. apply negb_true_iff, bool_decide_eq_false in Hr. done.
Qed.

Lemma unload_plug_well_formed r s :
  well_formed s -> well_formed (unload_plug r s).
Proof.
  intros (Hsubs & _ & Hsys). split; [| split].
  - intros ev subs' sub Hlook Hin.
    change (eventHook (unload_plug r s)) with (omap (drop_plug r) (eventHook s))
      in Hlook.
    rewrite lookup_omap in Hlook.
    destruct (eventHook s !! ev) as [subs|] eqn:Hev; [| done].
    simpl in Hlook. unfold drop_plug in Hlook.
    assert (Hsub : sub ∈ List.filter
                     (fun x : Subscriber => negb (bool_decide (x.1 = r))) subs).
    { destruct (List.filter _ subs); [done |]. by injection Hlook as <-. }
    apply list_elem_of_In, filter_In in Hsub as [Hsub Hr].
    apply negb_true_iff, bool_decide_eq_false in Hr.
    destruct (Hsubs ev subs sub Hev) as (p & Hp & Href & Hf);
      [by apply list_elem_of_In |].
    exists p. split; [| done].
    apply keeps_other_refs; [done | congruence].
  - done.
  - intros n b r' Hlook Hown.
    change (registeredSyscalls (unload_plug r s))
      with (filter (fun nb : string * Binding Host => owned_by r nb.2 = false)
                   (registeredSyscalls s)) in Hlook.
    apply map_lookup_filter_Some in Hlook as [Hlook Hnot]. simpl in Hnot.
    unfold owned_by in Hnot. apply bool_decide_eq_false in Hnot.
    destruct (Hsys n b r' Hlook Hown) as (p & Hp & Href).
    exists p. split; [| done].
    apply keeps_other_refs; [done | congruence].
Qed.

Lemma unload_plugs_spec (ps : list LoadedPlugin) : forall s,
  well_formed s ->
  let s' := foldl (fun s p => unload_plug (ref_of p) s) s ps in
  well_formed s'
  /\ generation s' = generation s
  /\ runtimeEnv s' = runtimeEnv s
  /\ forall p, p ∈ loadedPlugs s' ->
               p ∈ loadedPlugs s /\ ref_of p ∉ map ref_of ps.
Proof.
  induction ps as [|q ps IH]; intros s Hwf; cbn [foldl map].
  - split; [done |]. split; [done |]. split; [done |].
    intros p Hp. split; [done |]. intros Hin. inversion Hin.
  - destruct (IH (unload_plug (ref_of q) s) (unload_plug_well_formed _ _ Hwf))
      as (Hwf' & Hgen & Henv & Hplugs).
    split; [done |]. split; [done |]. split; [done |].
    intros p Hp. destruct (Hplugs p Hp) as [Hin Hnot].
    apply kept_ref in Hin as [Hin Hne]. split; [done |].
    intros Hbad. apply elem_of_cons in Hbad as [Hbad | Hbad]; done.
Qed.

Lemma unloadAll_spec s :
  well_formed s ->
  well_formed (unloadAll s)
  /\ loadedPlugs (unloadAll s) = []
  /\ generation (unloadAll s) = S (generation s)
  /\ runtimeEnv (unloadAll s) = runtimeEnv s.
Proof.
  intros Hwf. unfold unloadAll.
  destruct (unload_plugs_spec (loadedPlugs s) s Hwf) as (Hwf' & Hgen & Henv & Hplugs).
  set (s1 := foldl _ s (loadedPlugs s)) in *.
  split; [exact Hwf' |]. split; [| split; [simpl; by rewrite Hgen | done]].
  change (loadedPlugs (set_generation (S (generation s1)) s1)) with (loadedPlugs s1).
  destruct (loadedPlugs s1) as [|p l] eqn:Hl; [done |].
  destruct (Hplugs p) as [Hin Hnot]; [left |].
  exfalso. apply Hnot. apply list_elem_of_fmap. eauto.
Qed.

Lemma same_plugs_trans s1 s2 s3 :
  same_plugs s1 s2 -> same_plugs s2 s3 -> same_plugs s1 s3.
Proof. unfold same_plugs. intuition congruence. Qed.

Lemma subscribe_spec ev r f s :
  subscriptions_ok s -> refers (loadedPlugs s) r f ->
  subscriptions_ok (subscribe ev r f s) /\ same_plugs s (subscribe ev r f s).
Proof.
  intros Hsubs Href. unfold subscribe.
  destruct (bool_decide ((r, f) ∈ subscribers ev s)); [done |].
  split; [| done].
  intros ev' subs' sub Hlook Hin. cbn [eventHook set_eventHook loadedPlugs] in *.
  destruct (decide (ev = ev')) as [<-|Hne].
  - rewrite lookup_insert_eq in Hlook. injection Hlook as <-.
    apply elem_of_app in Hin as [Hin | Hin].
    + unfold subscribers in Hin.
      destruct (eventHook s !! ev) as [l|] eqn:Hev; [by eapply Hsubs |].
      inversion Hin.
    + apply list_elem_of_singleton in Hin as ->. done.
  - rewrite lookup_insert_ne in Hlook by done. by eapply Hsubs.
Qed.

Lemma subscribe_events p fname (evs : list string) : forall s,
  subscriptions_ok s -> refers (loadedPlugs s) (ref_of p) fname ->
  let s' := foldl (fun s ev => subscribe ev (ref_of p) fname s) s evs in
  subscriptions_ok s' /\ same_plugs s s'.
Proof.
  induction evs as [|ev evs IH]; intros s Hsubs Href; cbn [foldl]; [done |].
  destruct (subscribe_spec ev (ref_of p) fname s Hsubs Href) as [Hsubs1 Hsame1].
  destruct (IH (subscribe ev (ref_of p) fname s) Hsubs1) as [Hsubs2 Hsame2].
  { destruct Hsame1 as (-> & _). done. }
  split; [done |]. by eapply same_plugs_trans.
Qed.

Lemma subscribe_functions p (fs : list (string * FunctionDef)) : forall s,
  subscriptions_ok s -> p ∈ loadedPlugs s ->
  (forall x, x ∈ fs -> x.1 ∈ (functions (manifest p)).*1) ->
  let s' := foldl (fun s '(fname, f) =>
                     foldl (fun s ev => subscribe ev (ref_of p) fname s) s (events f))
                  s fs in
  subscriptions_ok s' /\ same_plugs s s'.
Proof.
  induction fs as [|[fname f] fs IH]; intros s Hsubs Hp Hfs; cbn [foldl]; [done |].
  destruct (subscribe_events p fname (events f) s Hsubs) as [Hsubs1 Hsame1].
  { exists p. split; [done |]. split; [done |]. apply (Hfs (fname, f)). left. }
  set (s1 := foldl _ s (events f)) in *.
  destruct (IH s1 Hsubs1) as [Hsubs2 Hsame2].
  { destruct Hsame1 as (-> & _). done. }
  { intros x Hx. apply Hfs. by right. }
  split; [done |]. by eapply same_plugs_trans.
Qed.

Lemma load_spec m (f : SandboxFactory) s :
  well_formed s -> current s ->
  well_formed (load m f s).2
  /\ current (load m f s).2
  /\ generation (load m f s).2 = generation s
  /\ runtimeEnv (load m f s).2 = runtimeEnv s.
Proof.
  intros Hwf Hcur. unfold load.
  destruct (negb (validate m)); [done |].
  destruct (f m) as [sb|]; [| done]. cbn [snd].
  destruct (unload_plugs_spec (List.filter (same_name (name m)) (loadedPlugs s)) s Hwf)
    as ((Hsubs1 & _ & Hsys1) & Hgen1 & Henv1 & Hplugs1).
  set (s1 := foldl _ s (List.filter _ _)) in *.
  set (p := mkLoadedPlugin m (generation s1) sb).
  set (s2 := set_loadedPlugs (loadedPlugs s1 ++ [p]) s1).
  assert (Hsubs2 : subscriptions_ok s2).
  { intros ev subs sub Hlook Hin.
    destruct (Hsubs1 ev subs sub Hlook Hin) as (q & Hq & Hr & Hf).
    exists q. split; [| done]. apply elem_of_app. by left. }
  assert (Hp2 : p ∈ loadedPlugs s2).
  { apply elem_of_app. right. left. }
  assert (H3 : subscriptions_ok (subscribe_all p s2)
               /\ same_plugs s2 (subscribe_all p s2)).
  { apply (subscribe_functions p (functions (manifest p)) s2 Hsubs2 Hp2).
    intros x Hx. apply list_elem_of_fmap. by exists x. }
  destruct H3 as [Hsubs3 Hsame3].
  destruct Hsame3 as (Hl3 & Hg3 & Hr3 & He3).
  split; [split; [| split] |]; [| | | split; [| split]].
  - intros ev subs sub Hlook Hin.
    change (loadedPlugs (rebuild_hooks (subscribe_all p s2)))
      with (loadedPlugs (subscribe_all p s2)).
    by eapply Hsubs3.
  - done.
  - intros n b r Hlook Hown.
    change (registeredSyscalls (rebuild_hooks (subscribe_all p s2)))
      with (registeredSyscalls (subscribe_all p s2)) in Hlook.
    change (loadedPlugs (rebuild_hooks (subscribe_all p s2)))
      with (loadedPlugs (subscribe_all p s2)).
    rewrite Hr3 in Hlook. rewrite Hl3.
    destruct (Hsys1 n b r Hlook Hown) as (q & Hq & Href).
    exists q. split; [| done]. apply elem_of_app. by left.
  - intros q Hq.
    change (loadedPlugs (rebuild_hooks (subscribe_all p s2)))
      with (loadedPlugs (subscribe_all p s2)) in Hq.
    change (generation (rebuild_hooks (subscribe_all p s2)))
      with (generation (subscribe_all p s2)).
    rewrite Hl3 in Hq. rewrite Hg3.
    apply elem_of_app in Hq as [Hq | Hq].
    + destruct (Hplugs1 q Hq) as [Hq' _].
      change (generation s2) with (generation s1). rewrite Hgen1. by apply Hcur.
    + apply list_elem_of_singleton in Hq as ->. done.
  - change (generation (rebuild_hooks (subscribe_all p s2)))
      with (generation (subscribe_all p s2)).
    rewrite Hg3. exact Hgen1.
  - change (runtimeEnv (rebuild_hooks (subscribe_all p s2)))
      with (runtimeEnv (subscribe_all p s2)).
    rewrite He3. exact Henv1.
Qed.

Lemma loadAll_cons m (ms : list Manifest.t) (f : SandboxFactory) s :
  loadAll (m :: ms) f s
  = loadAll ms f match load m f s with
                 | (Loaded, s') => s'
                 | (_, s') => write_console (PlugSkipped (name m)) s'
                 end.
Proof. reflexivity. Qed.

Lemma loadAll_spec (ms : list Manifest.t) (f : SandboxFactory) : forall s,
  well_formed s -> current s ->
  well_formed (loadAll ms f s)
  /\ current (loadAll ms f s)
  /\ generation (loadAll ms f s) = generation s
  /\ runtimeEnv (loadAll ms f s) = runtimeEnv s.
Proof.
  induction ms as [|m ms IH]; intros s Hwf Hcur; [done |].
  rewrite loadAll_cons.
  destruct (load_spec m f s Hwf Hcur) as (Hwf1 & Hcur1 & Hgen1 & Henv1).
  destruct (load m f s) as [[] s1]; cbn [snd] in *.
  - destruct (IH s1 Hwf1 Hcur1) as (? & ? & -> & ->). done.
  - destruct (IH (write_console (PlugSkipped (name m)) s1)) as (? & ? & -> & ->);
      done.
  - destruct (IH (write_console (PlugSkipped (name m)) s1)) as (? & ? & -> & ->);
      done.
Qed.

Lemma registerSyscalls_spec perms (sets : list (list (string * SyscallImpl Host))) s :
  well_formed s ->
  let s' := registerSyscalls perms sets s in
  well_formed s'
  /\ loadedPlugs s' = loadedPlugs s
  /\ generation s' = generation s
  /\ eventHook s' = eventHook s
  /\ commandHook s' = commandHook s
  /\ runtimeEnv s' = runtimeEnv s.
Proof.
  unfold registerSyscalls. generalize (concat sets). intros l. revert s.
  induction l as [|[n i] l IH]; intros s Hwf; cbn [foldl]; [done |].
  set (s1 := set_registeredSyscalls _ s).
  destruct (IH s1) as (Hwf' & -> & -> & -> & -> & ->); [| done].
  destruct Hwf as (Hsubs & Hcaches & Hsys). split; [done |]. split; [done |].
  intros n' b r Hlook Hown. subst s1. cbn [registeredSyscalls set_registeredSyscalls
                                           loadedPlugs] in *.
  destruct (decide (n = n')) as [<-|Hne].
  - rewrite lookup_insert_eq in Hlook. injection Hlook as <-. done.
  - rewrite lookup_insert_ne in Hlook by done. by eapply Hsys.
Qed.

Lemma dispatch_to_tables ev subs payload : forall s,
  let s' := (dispatch_to ev subs payload s).2 in
  loadedPlugs s' = loadedPlugs s
  /\ generation s' = generation s
  /\ eventHook s' = eventHook s
  /\ commandHook s' = commandHook s
  /\ slashCommandHook s' = slashCommandHook s
  /\ namespaceHook s' = namespaceHook s
  /\ registeredSyscalls s' = registeredSyscalls s
  /\ runtimeEnv s' = runtimeEnv s.
Proof.
  induction subs as [|[r f] rest IH]; intros s; [done |].
  cbn [dispatch_to fst snd]. unfold invoke.
  destruct (lookup_plug r s) as [p|].
  - destruct (run (sandbox p) f [payload]) as [v|fl].
    + specialize (IH (record_invocation (mkInvocation r f [payload]) s)).
      destruct (dispatch_to ev rest payload _) as [vs s2]. exact IH.
    + exact (IH (write_console (SubscriberFailed ev (r, f) fl)
                   (record_invocation (mkInvocation r f [payload]) s))).
  - exact (IH (write_console (SubscriberFailed ev (r, f) Trapped) s)).
Qed.

Lemma dispatchEvent_well_formed ev payload s :
  well_formed s -> current s ->
  well_formed (dispatchEvent ev payload s).2
  /\ current (dispatchEvent ev payload s).2
  /\ generation (dispatchEvent ev payload s).2 = generation s.
Proof.
  intros (Hsubs & (Hc1 & Hc2 & Hc3) & Hsys) Hcur. unfold dispatchEvent.
  destruct (dispatch_to_tables ev (subscribers ev s) payload s)
    as (Hl & Hg & He & Hc & Hsl & Hns & Hr & _).
  set (s' := (dispatch_to ev (subscribers ev s) payload s).2) in *.
  split; [split; [| split] |]; [| | | split].
  - intros ev' subs sub. rewrite He, Hl. apply Hsubs.
  - unfold caches_ok. rewrite Hc, Hsl, Hns, Hl. done.
  - intros n b r. rewrite Hr, Hl. apply Hsys.
  - intros p. rewrite Hl, Hg. apply Hcur.
  - done.
Qed.

(** In a runtime whose plugs are all of the current generation, a handle
    of another generation reaches no sandbox. *)
Lemma stale_handle_trapped s r f args :
  current s -> r.2 <> generation s ->
  invoke r f args s = (Failed Trapped, s).
Proof.
  intros Hcur Hgen. unfold invoke, lookup_plug.
  destruct (List.find (has_ref r) (loadedPlugs s)) as [p|] eqn:Hfind; [| done].
  apply find_some in Hfind as [Hin Href].
  unfold has_ref in Href. apply bool_decide_eq_true in Href.
  exfalso. apply Hgen. rewrite <- Href. apply Hcur. by apply list_elem_of_In.
Qed.

End Reload.

Section ReloadPlugs.
Context `{Ext : Editor.Externals}.
Import Manifest Plugos Editor.

Lemma values_set {V : Type} (k : string) (x v : V) (m : JsMap.t V) :
  v ∈ JsMap.values (JsMap.set k x m) -> v = x \/ v ∈ JsMap.values m.
Proof.
  unfold JsMap.values. induction m as [|[k' v'] m IH]; cbn [JsMap.set map].
  - intros H. apply list_elem_of_singleton in H. by left.
  - destruct (String.eqb k' k); cbn [map snd]; intros H;
      apply elem_of_cons in H as [H | H].
    + by left.
    + right. by right.
    + right. subst. left.
    + destruct (IH H) as [? | ?]; [by left | right; by right].
Qed.

Lemma build_commands_values (ps : list LoadedPlugin) (c : CommandEntry) :
  c ∈ JsMap.values (build_commands ps) ->
  exists p, p ∈ ps /\ cmd_plug c = ref_of p
            /\ cmd_function c ∈ (functions (manifest p)).*1.
Proof.
  unfold build_commands.
  assert (Hgen : forall l (m : JsMap.t CommandEntry),
             c ∈ JsMap.values
                   (foldl (fun m c => JsMap.set (cmd_name (command c)) c m) m l) ->
             c ∈ JsMap.values m \/ c ∈ l).
  { induction l as [|x l IH]; intros m H; cbn [foldl] in H; [by left |].
    destruct (IH _ H) as [H1 | H1].
    - apply values_set in H1 as [-> | H1]; [right; left | by left].
    - right. by right. }
  intros H. destruct (Hgen _ _ H) as [H1 | H1]; [inversion H1 |].
  apply list_elem_of_In, in_flat_map in H1 as (p & Hp & Hc).
  exists p. split; [by apply list_elem_of_In |].
  apply list_elem_of_In in Hc. unfold commands_of in Hc.
  apply list_elem_of_omap in Hc as ([fname f] & Hf & Hsome).
  destruct (Manifest.command f) as [cd|]; [| done].
  injection Hsome as <-. split; [done |].
  apply list_elem_of_fmap. by exists (fname, f).
Qed.

Lemma load_one_failed (names : list string) : forall x (e : Editor.t),
  (foldl load_one (Some x, e) names).1 = Some x.
Proof.
  induction names as [|n names IH]; intros x e; cbn [foldl]; [done |].
  unfold load_one at 2.
  destruct (readPlug (space e) n) as [m|y]; [| apply IH].
  destruct (load m createSandbox (system e)) as [[] sys]; apply IH.
Qed.

Lemma load_one_all (names : list string) : forall (e e1 : Editor.t),
  foldl load_one (None, e) names = (None, e1) ->
  exists ms,
    Forall2 (fun n m => readPlug (space e) n = Ok m) names ms
    /\ system e1 = loadAll ms createSandbox (system e)
    /\ space e1 = space e.
Proof.
  induction names as [|n names IH]; intros e e1; cbn [foldl].
  - intros [= <-]. exists []. done.
  - unfold load_one at 2.
    destruct (readPlug (space e) n) as [m|y] eqn:Hread.
    2: { intros H. pose proof (load_one_failed names y e) as Hf.
         rewrite H in Hf. done. }
    destruct (load m createSandbox (system e)) as [r sys] eqn:Hload.
    destruct r.
    + intros H. apply IH in H as (ms & Hms & Hsys & Hsp).
      exists (m :: ms). split; [by constructor |].
      split; [| done]. rewrite loadAll_cons, Hload. exact Hsys.
    + intros H. pose proof (load_one_failed names (PlugError n ValidationError)
                                            (set_system sys e)) as Hf.
      rewrite H in Hf. done.
    + intros H. pose proof (load_one_failed names (PlugError n LoadError)
                                            (set_system sys e)) as Hf.
      rewrite H in Hf. done.
Qed.

Lemma restoreState_system page (e : Editor.t) :
  system (restoreState page e).2 = system e.
Proof.
  unfold restoreState. destruct (editorView e) as [v|]; [| done].
  cbn [snd]. unfold focus. done.
Qed.

Lemma saveState_system page (e : Editor.t) : system (saveState page e) = system e.
Proof. unfold saveState. by destruct (editorView e). Qed.

Lemma rebuildEditorState_system (e : Editor.t) :
  system (rebuildEditorState e) = system e
  \/ system (rebuildEditorState e)
     = registerSyscalls [] [markdownSyscalls (loadMarkdownExtensions (system e))]
                        (system e).
Proof.
  unfold rebuildEditorState.
  change (editorView (console_log "Rebuilding editor state" e)) with (editorView e).
  destruct (editorView e) as [v|] eqn:Hv; [| by left].
  change (get_currentPage (console_log "Rebuilding editor state" e))
    with (get_currentPage e).
  destruct (get_currentPage e) as [page|]; [| by left].
  destruct (negb (String.eqb page "")); [| by left].
  right. rewrite restoreState_system.
  cbn [system set_editorView]. rewrite saveState_system. done.
Qed.

(** The runtime after a reload that completes. *)
Lemma reloadPlugs_system (e e' : Editor.t) :
  reloadPlugs e = (Ok tt, e') ->
  exists sp pages names ms mid,
    updatePageList (space e) = Ok (sp, pages)
    /\ listPlugs sp = Ok names
    /\ Forall2 (fun n m => readPlug sp n = Ok m) names ms
    /\ (let reloaded := loadAll ms createSandbox (unloadAll (system e)) in
        mid = reloaded
        \/ mid = registerSyscalls
                   [] [markdownSyscalls (loadMarkdownExtensions reloaded)] reloaded)
    /\ system e' = (dispatchEvent "plugs:loaded" Js.Undefined mid).2.
Proof.
  unfold reloadPlugs.
  change (space (console_log "Loading plugs" e)) with (space e).
  destruct (updatePageList (space e)) as [[sp pages]|x] eqn:Hlist; [| done].
  cbn [space console_log viewDispatch set_viewState set_space commandsUpdated
       set_system system].
  destruct (listPlugs sp) as [names|x] eqn:Hnames; [| done].
  match goal with |- context [foldl load_one (None, ?x) names] => set (e0 := x) end.
  destruct (foldl load_one (None, e0) names) as [[x|] e1] eqn:Hfold; [done |].
  apply load_one_all in Hfold as (ms & Hms & Hsys & Hsp).
  pose proof (rebuildEditorState_system e1) as Hmid.
  unfold dispatchAppEvent.
  destruct (dispatchEvent "plugs:loaded" Js.Undefined (system (rebuildEditorState e1)))
    as [results sys] eqn:Hd.
  intros [= <-].
  exists sp, pages, names, ms, (system (rebuildEditorState e1)).
  split; [done |]. split; [done |]. split; [exact Hms |].
  split; [| by rewrite Hd].
  cbn zeta. rewrite Hsys in Hmid. exact Hmid.
Qed.

Lemma current_ref (s : System Host) p r :
  current s -> p ∈ loadedPlugs s -> ref_of p = r -> r.2 = generation s.
Proof. intros Hcur Hp <-. by apply Hcur. Qed.

Lemma no_stale_entries_intro (s : System Host) :
  well_formed s -> current s -> no_stale_entries s.
Proof.
  intros (Hsubs & (Hcmd & _) & Hsys) Hcur. split; [| split; [| split]].
  - intros ev sub Hin. unfold subscribers in Hin.
    destruct (eventHook s !! ev) as [subs|] eqn:Hev; [| inversion Hin].
    pose proof (Hsubs ev subs sub Hev Hin) as Href. split; [| done].
    destruct Href as (p & Hp & Hr & _). by eapply current_ref.
  - intros c Hc. rewrite Hcmd in Hc.
    apply build_commands_values in Hc as (p & Hp & Hr & Hf).
    split; [by eapply current_ref |]. by exists p.
  - intros n b r Hlook Hown. pose proof (Hsys n b r Hlook Hown) as Href.
    split; [| done]. destruct Href as (p & Hp & Hr). by eapply current_ref.
  - intros r f args Hr. by apply stale_handle_trapped.
Qed.

Lemma reloadPlugs_invariants (e e' : Editor.t) :
  well_formed (system e) ->
  reloadPlugs e = (Ok tt, e') ->
  well_formed (system e')
  /\ current (system e')
  /\ generation (system e') = S (generation (system e)).
Proof.
  intros Hwf Hreload.
  apply reloadPlugs_system in Hreload
    as (sp & pages & names & ms & mid & _ & _ & _ & Hmid & ->).
  destruct (unloadAll_spec (system e) Hwf) as (Hwf0 & Hnone & Hgen0 & _).
  assert (Hcur0 : current (unloadAll (system e))).
  { intros p Hp. rewrite Hnone in Hp. inversion Hp. }
  destruct (loadAll_spec ms createSandbox _ Hwf0 Hcur0) as (Hwf1 & Hcur1 & Hgen1 & _).
  set (reloaded := loadAll ms createSandbox (unloadAll (system e))) in *.
  assert (Hm : well_formed mid /\ current mid /\ generation mid = generation reloaded).
  { cbn zeta in Hmid. destruct Hmid as [-> | ->]; [done |].
    destruct (registerSyscalls_spec
                [] [markdownSyscalls (loadMarkdownExtensions reloaded)] reloaded Hwf1)
      as (Hwf2 & Hl2 & Hg2 & _).
    split; [done |]. split; [| done].
    intros p. rewrite Hl2, Hg2. apply Hcur1. }
  destruct Hm as (Hwfm & Hcurm & Hgenm).
  destruct (dispatchEvent_well_formed "plugs:loaded" Js.Undefined mid Hwfm Hcurm)
    as (Hwf3 & Hcur3 & Hgen3).
  split; [done |]. split; [done |]. by rewrite Hgen3, Hgenm, Hgen1, Hgen0.
Qed.

End ReloadPlugs.


Lemma new_editor_well_formed `{Ext : Editor.Externals} (sp : Editor.Space) :
  well_formed (Editor.system (Editor.new sp)).
Proof.
  change (Editor.system (Editor.new sp))
    with (Plugos.registerSyscalls [] Editor.hostSyscalls
                                  (Plugos.new_system Manifest.client)).
  apply registerSyscalls_spec, new_system_well_formed.
Qed.


Example reload_replaces_subscribers :
  let e' := (Editor.reloadPlugs Sample.started).2 in
  Plugos.subscribers "page:click" (Editor.system Sample.started)
  = [("core", 1%nat, "clickNavigate")]
  /\ Plugos.subscribers "page:click" (Editor.system e')
     = [("core", 2%nat, "clickNavigate")].
Proof. vm_compute. split; reflexivity. Qed.
